(** * generate_ast.py: the AST class generator of jlox

    A shallow embedding of [jlox/src/main/java/com/cthuloops/tool/generate_ast.py]
    and the properties of the Java text it emits.

    Python [str] values are modelled as [string] (sequences of 8-bit
    characters, read as ASCII text); a [StrEnum] is an inductive type with
    its [str] rendering; the two frozen dataclasses are records; the file
    system touched by [define_ast] is a finite map from paths to contents
    and the error stream is a string, both threaded through a small
    state-and-exception monad. *)

From stdpp Require Import base gmap strings list.
From Stdlib Require Import Ascii String.

Local Open Scope string_scope.

(* ================================================================== *)
(** ** Schema model                                                    *)
(* ================================================================== *)

(** [class Expression_Type(StrEnum)], members in declaration order. *)
Inductive Expression_Type : Set :=
  | ASSIGN | BINARY | GROUPING | LITERAL | UNARY | VARIABLE.

(** [class Statement_Type(StrEnum)]. *)
Inductive Statement_Type : Set :=
  | EXPR | PRINT | VAR.

(** [class Parameter_Type(StrEnum)]. *)
Inductive Parameter_Type : Set :=
  | EXPRESSION | TOKEN | OBJECT.

(** [str(m)] / [format(m)] of a [StrEnum] member is its value. *)
Definition Expression_Type_str (t : Expression_Type) : string :=
  match t with
  | ASSIGN => "Assign"
  | BINARY => "Binary"
  | GROUPING => "Grouping"
  | LITERAL => "Literal"
  | UNARY => "Unary"
  | VARIABLE => "Variable"
  end.

Definition Statement_Type_str (t : Statement_Type) : string :=
  match t with
  | EXPR => "Expr"
  | PRINT => "Print"
  | VAR => "Var"
  end.

Definition Parameter_Type_str (t : Parameter_Type) : string :=
  match t with
  | EXPRESSION => "Expression"
  | TOKEN => "Token"
  | OBJECT => "Object"
  end.

(** The annotation [Expression_Type | Statement_Type] of [AST_Class.name]. *)
Inductive Tag : Set :=
  | ExprTag (t : Expression_Type)
  | StmtTag (t : Statement_Type).

Definition Tag_str (t : Tag) : string :=
  match t with
  | ExprTag e => Expression_Type_str e
  | StmtTag s => Statement_Type_str s
  end.

(** The enumeration classes themselves, as obtained by [type(tag)]. *)
Inductive EnumClass : Set :=
  | Expression_Type_class
  | Statement_Type_class.

Definition type_of (t : Tag) : EnumClass :=
  match t with
  | ExprTag _ => Expression_Type_class
  | StmtTag _ => Statement_Type_class
  end.

(** Iterating an enumeration class yields its members in declaration order. *)
Definition members (c : EnumClass) : list Tag :=
  match c with
  | Expression_Type_class =>
      [ExprTag ASSIGN; ExprTag BINARY; ExprTag GROUPING;
       ExprTag LITERAL; ExprTag UNARY; ExprTag VARIABLE]
  | Statement_Type_class =>
      [StmtTag EXPR; StmtTag PRINT; StmtTag VAR]
  end.

#[global] Instance Expression_Type_eq_dec : EqDecision Expression_Type.
Proof. solve_decision. Defined.
#[global] Instance Statement_Type_eq_dec : EqDecision Statement_Type.
Proof. solve_decision. Defined.
#[global] Instance Parameter_Type_eq_dec : EqDecision Parameter_Type.
Proof. solve_decision. Defined.
#[global] Instance Tag_eq_dec : EqDecision Tag.
Proof. solve_decision. Defined.
#[global] Instance EnumClass_eq_dec : EqDecision EnumClass.
Proof. solve_decision. Defined.

(** [@dataclass(frozen=True) class Parameter]; the record is called
    [Param] because the source's class name is a reserved word here. *)
Record Param : Set := mkParameter {
  param_type : Parameter_Type;
  param_name : string
}.

(** [Parameter.__str__]. *)
Definition Parameter_str (p : Param) : string :=
  Parameter_Type_str (param_type p) +:+ " " +:+ param_name p.

(** [@dataclass(frozen=True) class AST_Class]. *)
Record AST_Class : Set := mkAST_Class {
  base_name : string;
  name : Tag;
  parameters : list Param
}.

#[global] Instance Parameter_eq_dec : EqDecision Param.
Proof. solve_decision. Defined.
#[global] Instance AST_Class_eq_dec : EqDecision AST_Class.
Proof. solve_decision. Defined.

(* ================================================================== *)
(** ** String helpers of the Python runtime                            *)
(* ================================================================== *)

(** The line feed character and the one-character string holding it. *)
Definition newline : ascii := ascii_of_nat 10.
Definition LF : string := String newline EmptyString.

(** [sep.join(ls)]. *)
Definition join (sep : string) (ls : list string) : string :=
  String.concat sep ls.

(** [str.casefold] on one ASCII character: upper-case letters are
    lowered, every other character is kept. *)
Definition casefold_ascii (c : ascii) : ascii :=
  let n := nat_of_ascii c in
  if (65 <=? n)%nat && (n <=? 90)%nat then ascii_of_nat (n + 32) else c.

(** [str.casefold] on ASCII text, where it is lower-casing; the base
    names of the program are ASCII identifiers.  Outside ASCII
    [str.casefold] does more (it folds all of Unicode) and this function
    is not its model. *)
Fixpoint casefold (s : string) : string :=
  match s with
  | EmptyString => EmptyString
  | String c s' => String (casefold_ascii c) (casefold s')
  end.

(** [s.startswith("/")] and [s.endswith("/")]. *)
Definition startswith_sep (s : string) : bool :=
  match s with
  | String c _ => bool_decide (c = "/"%char)
  | EmptyString => false
  end.

Fixpoint endswith_sep (s : string) : bool :=
  match s with
  | EmptyString => false
  | String c EmptyString => bool_decide (c = "/"%char)
  | String _ s' => endswith_sep s'
  end.

(** [os.path.join(a, b)] as [posixpath] defines it: an absolute [b]
    replaces [a]; otherwise the two are joined by one separator. *)
Definition path_join (a b : string) : string :=
  if startswith_sep b then b
  else if bool_decide (a = "") || endswith_sep a then a +:+ b
  else a +:+ "/" +:+ b.

(* ================================================================== *)
(** ** Emitter: one class block per variant ([AST_Class.__str__])       *)
(* ================================================================== *)

Module AST_Class_methods.

Definition generate_class_decl (self : AST_Class) : string :=
  "  static class " +:+ Tag_str (name self) +:+ " extends "
    +:+ base_name self +:+ " {" +:+ LF.

Definition generate_constructor_decl (self : AST_Class) : string :=
  let params := map Parameter_str (parameters self) in
  "    " +:+ Tag_str (name self) +:+ "(" +:+ join ", " params
    +:+ ") {" +:+ LF.

Definition generate_fields (self : AST_Class) : string :=
  join "" (map (fun p => "        this." +:+ param_name p +:+ " = "
                           +:+ param_name p +:+ ";" +:+ LF)
               (parameters self)).

Definition generate_constructor_end (self : AST_Class) : string :=
  "    }" +:+ LF +:+ LF.

Definition generate_visitor_method (self : AST_Class) : string :=
  let override := "    @Override" +:+ LF in
  let accept := "    <R> R accept(Visitor<R> visitor) {" +:+ LF in
  let ret := "        return visitor.visit" +:+ Tag_str (name self)
               +:+ base_name self +:+ "(this);" +:+ LF in
  let end_ := "    }" +:+ LF +:+ LF in
  join "" [override; accept; ret; end_].

Definition generate_final_fields (self : AST_Class) : string :=
  join "" (map (fun p => "    final " +:+ Parameter_str p +:+ ";" +:+ LF)
               (parameters self)).

Definition generate_class_end (self : AST_Class) : string :=
  "  }" +:+ LF +:+ LF.

End AST_Class_methods.

(** [AST_Class.__str__]. *)
Definition AST_Class_str (self : AST_Class) : string :=
  join "" [
    AST_Class_methods.generate_class_decl self;
    AST_Class_methods.generate_constructor_decl self;
    AST_Class_methods.generate_fields self;
    AST_Class_methods.generate_constructor_end self;
    AST_Class_methods.generate_visitor_method self;
    AST_Class_methods.generate_final_fields self;
    AST_Class_methods.generate_class_end self
  ].

(* ================================================================== *)
(** ** Schema catalog                                                  *)
(* ================================================================== *)

Definition build_expressions (base_name : string) : list AST_Class :=
  let assign := mkAST_Class base_name (ExprTag ASSIGN)
                  [ mkParameter TOKEN "name";
                    mkParameter EXPRESSION "value" ] in
  let binary := mkAST_Class base_name (ExprTag BINARY)
                  [ mkParameter EXPRESSION "left";
                    mkParameter TOKEN "operator";
                    mkParameter EXPRESSION "right" ] in
  let grouping := mkAST_Class base_name (ExprTag GROUPING)
                  [ mkParameter EXPRESSION "expression" ] in
  let literal := mkAST_Class base_name (ExprTag LITERAL)
                  [ mkParameter OBJECT "value" ] in
  let unary := mkAST_Class base_name (ExprTag UNARY)
                  [ mkParameter TOKEN "operator";
                    mkParameter EXPRESSION "right" ] in
  let variable := mkAST_Class base_name (ExprTag VARIABLE)
                  [ mkParameter TOKEN "name" ] in
  [assign; binary; grouping; literal; unary; variable].

Definition build_statements (base_name : string) : list AST_Class :=
  let expr := mkAST_Class base_name (StmtTag EXPR)
                  [ mkParameter EXPRESSION "expression" ] in
  let prnt := mkAST_Class base_name (StmtTag PRINT)
                  [ mkParameter EXPRESSION "expression" ] in
  let vrbl := mkAST_Class base_name (StmtTag VAR)
                  [ mkParameter TOKEN "name";
                    mkParameter EXPRESSION "initializer" ] in
  [expr; prnt; vrbl].

(** The default values of the builders' [base_name] argument, and the
    calls [build_expressions()] and [build_statements()] that use them. *)
Definition build_expressions_default : list AST_Class :=
  build_expressions "Expression".
Definition build_statements_default : list AST_Class :=
  build_statements "Statement".

(* ================================================================== *)
(** ** The process state and its monad                                 *)
(* ================================================================== *)

(** The file system (path to content of each regular file) and what has
    been printed on the error stream.  A file is named by the text of its
    path: the model has no directories, links or other second names of a
    file.  Opening a file for writing is taken to succeed: the directory
    exists and is writable. *)
Record World : Type := mkWorld {
  files : gmap string string;
  stderr : string
}.

(** The exceptions the program can raise. *)
Inductive Exn : Set :=
  | IndexError
  | SystemExit (code : Z).

Inductive Outcome (A : Type) : Type :=
  | Return (a : A)
  | Raise (e : Exn).
Arguments Return {A} a.
Arguments Raise {A} e.

Definition M (A : Type) : Type := World -> Outcome A * World.

#[global] Instance M_ret : MRet M := fun A a w => (Return a, w).
#[global] Instance M_bind : MBind M := fun A B f m w =>
  match m w with
  | (Return a, w') => f a w'
  | (Raise e, w') => (Raise e, w')
  end.

Definition raise {A} (e : Exn) : M A := fun w => (Raise e, w).

(** [open(filepath, "w")]: the file is created or truncated. *)
Definition open_w (filepath : string) : M unit := fun w =>
  (Return tt, mkWorld (<[filepath := ""]> (files w)) (stderr w)).

(** [f.write(s)] on the handle opened at [filepath]. *)
Definition write (filepath s : string) : M unit := fun w =>
  (Return tt, mkWorld (alter (fun c => c +:+ s) filepath (files w)) (stderr w)).

(** [f.writelines(ls)]; also the shape of a loop of [f.write] calls. *)
Fixpoint writelines (filepath : string) (ls : list string) : M unit :=
  match ls with
  | [] => mret tt
  | l :: ls' => write filepath l ;; writelines filepath ls'
  end.

(** [print(s, file=sys.stderr)]. *)
Definition print_stderr (s : string) : M unit := fun w =>
  (Return tt, mkWorld (files w) (stderr w +:+ s +:+ LF)).

(** [exit(code)]. *)
Definition exit {A} (code : Z) : M A := raise (SystemExit code).

(** [l[i]] on a Python list, for a non-negative index. *)
Definition getitem {A} (l : list A) (i : nat) : M A :=
  match l !! i with
  | Some x => mret x
  | None => raise IndexError
  end.

(* ================================================================== *)
(** ** Emitter: the family file                                        *)
(* ================================================================== *)

Definition generate_visitor_interface
    (base_name : string) (expression_types : list string) : string :=
  let start := "  interface Visitor<R> {" +:+ LF in
  let types :=
    join "" (map (fun name => "    R visit" +:+ name +:+ base_name +:+ "("
                                +:+ name +:+ " " +:+ casefold base_name
                                +:+ ");" +:+ LF)
                 expression_types) in
  let end_ := "  }" +:+ LF +:+ LF in
  start +:+ types +:+ end_.

Definition base_accept_method : string :=
  let comment := "  // Base accept method" +:+ LF in
  let method := "  abstract <R> R accept(Visitor<R> visitor);" +:+ LF in
  comment +:+ method.

Definition define_ast (output_dir base_name : string) (ast : list AST_Class)
    : M unit :=
  let filepath := path_join output_dir (base_name +:+ ".java") in
  first ← getitem ast 0;
  let enum_type := type_of (name first) in
  let header := [
    "// This file was generated using tool/generate_ast.py any changes made"
      +:+ LF +:+ "// here may be overwritten." +:+ LF;
    "package com.cthuloops.jlox;" +:+ LF +:+ LF;
    "import java.util.List;" +:+ LF +:+ LF;
    "abstract class " +:+ base_name +:+ " {" +:+ LF
  ] in
  open_w filepath;;
  writelines filepath header;;
  write filepath (generate_visitor_interface base_name
                    (map Tag_str (members enum_type)));;
  writelines filepath (map AST_Class_str ast);;
  write filepath base_accept_method;;
  write filepath ("}" +:+ LF).

Definition main (argv : list string) : M unit :=
  (if negb (List.length argv =? 2)%nat
   then print_stderr "Usage: generate_ast <output directory>";; exit 64%Z
   else mret tt);;
  output_dir ← getitem argv 1;
  define_ast output_dir "Expression" build_expressions_default;;
  output_dir ← getitem argv 1;
  define_ast output_dir "Statement" build_statements_default.

(** The content of the family file after a run of [define_ast] that
    returns, and nothing when the run raises. *)
Definition emitted (output_dir base_name : string) (ast : list AST_Class)
    (w : World) : option string :=
  match define_ast output_dir base_name ast w with
  | (Return _, w') =>
      files w' !! path_join output_dir (base_name +:+ ".java")
  | (Raise _, _) => None
  end.

(** The closed form of what [define_ast] leaves in the family file when
    the first variant's tag belongs to [enum_type]. *)
Definition header_text (base_name : string) : string :=
  join "" [
    "// This file was generated using tool/generate_ast.py any changes made"
      +:+ LF +:+ "// here may be overwritten." +:+ LF;
    "package com.cthuloops.jlox;" +:+ LF +:+ LF;
    "import java.util.List;" +:+ LF +:+ LF;
    "abstract class " +:+ base_name +:+ " {" +:+ LF
  ].

Definition family_text (base_name : string) (enum_type : EnumClass)
    (ast : list AST_Class) : string :=
  header_text base_name
    +:+ generate_visitor_interface base_name (map Tag_str (members enum_type))
    +:+ join "" (map AST_Class_str ast)
    +:+ base_accept_method
    +:+ "}" +:+ LF.

(* ================================================================== *)
(** ** Reading the emitted Java text                                   *)
(* ================================================================== *)

(** The properties below speak of the method declarations found in the
    emitted text.  These functions read them back from the text: the
    lines between the line that opens the visitor interface and the first
    line that closes a block, each taken apart as
    [<return type> <name>(<parameter type> <parameter name>);]. *)

(** [s.split(LF)]. *)
Fixpoint split_lines (s : string) : list string :=
  match s with
  | EmptyString => [EmptyString]
  | String c s' =>
      if Ascii.eqb c newline then EmptyString :: split_lines s'
      else match split_lines s' with
           | l :: ls => String c l :: ls
           | [] => [String c EmptyString]
           end
  end.

(** The lines after, and before, the first line equal to [marker]. *)
Fixpoint after_line (marker : string) (ls : list string) : list string :=
  match ls with
  | [] => []
  | l :: ls' => if String.eqb l marker then ls' else after_line marker ls'
  end.

Fixpoint before_line (marker : string) (ls : list string) : list string :=
  match ls with
  | [] => []
  | l :: ls' => if String.eqb l marker then [] else l :: before_line marker ls'
  end.

Definition visitor_interface_lines (text : string) : list string :=
  before_line "  }"
    (after_line "  interface Visitor<R> {" (split_lines text)).

(** [s.partition(c)]: the text before and after the first [c]. *)
Fixpoint split_at (c : ascii) (s : string) : option (string * string) :=
  match s with
  | EmptyString => None
  | String x s' =>
      if Ascii.eqb x c then Some (EmptyString, s')
      else match split_at c s' with
           | Some (a, b) => Some (String x a, b)
           | None => None
           end
  end.

(** [s.lstrip(" ")]. *)
Fixpoint lstrip (s : string) : string :=
  match s with
  | String c s' => if Ascii.eqb c " " then lstrip s' else s
  | EmptyString => EmptyString
  end.

Record MethodDecl : Set := mkMethodDecl {
  return_type : string;
  method_name : string;
  parameter_type : string;
  parameter_name : string
}.

#[global] Instance MethodDecl_eq_dec : EqDecision MethodDecl.
Proof. solve_decision. Defined.

Definition parse_method_decl (line : string) : option MethodDecl :=
  '(ret, r1) ← split_at " " (lstrip line);
  '(nm, r2) ← split_at "(" r1;
  '(pt, r3) ← split_at " " r2;
  '(pn, r4) ← split_at ")" r3;
  if String.eqb r4 ";" then Some (mkMethodDecl ret nm pt pn) else None.

(** The method declarations of the visitor interface of [text]; nothing
    when some line of the interface is not a method declaration. *)
Definition visitor_methods (text : string) : option (list MethodDecl) :=
  mapM parse_method_decl (visitor_interface_lines text).

(** How many declarations carry the name [nm]. *)
Definition count_named (nm : string) (decls : list MethodDecl) : nat :=
  List.length (filter (fun d => method_name d = nm) decls).

(** The declaration the visitor pattern needs for tag [t] of a family. *)
Definition visitor_method (base_name : string) (t : Tag) : MethodDecl :=
  mkMethodDecl "R" ("visit" +:+ Tag_str t +:+ base_name) (Tag_str t)
               (casefold base_name).

(** The text line that declares it. *)
Definition method_decl_line (base_name nm : string) : string :=
  "    R visit" +:+ nm +:+ base_name +:+ "(" +:+ nm +:+ " "
    +:+ casefold base_name +:+ ");".

(** [s1 in s2] for a non-empty [s1]. *)
Definition contains (s1 s2 : string) : bool :=
  match String.index 0 s1 s2 with
  | Some _ => true
  | None => false
  end.

(** Java identifiers over ASCII: letters, digits, [_] and [$], not
    starting with a digit. *)
Definition is_letter (c : ascii) : bool :=
  let n := nat_of_ascii c in
  ((65 <=? n)%nat && (n <=? 90)%nat) || ((97 <=? n)%nat && (n <=? 122)%nat).

Definition is_digit (c : ascii) : bool :=
  let n := nat_of_ascii c in (48 <=? n)%nat && (n <=? 57)%nat.

Definition identifier_char (c : ascii) : bool :=
  is_letter c || is_digit c || Ascii.eqb c "_" || Ascii.eqb c "$".

Fixpoint all_chars (P : ascii -> bool) (s : string) : bool :=
  match s with
  | EmptyString => true
  | String c s' => P c && all_chars P s'
  end.

(** Text of ASCII characters only, on which [casefold] above is what
    [str.casefold] computes. *)
Definition is_ascii_char (c : ascii) : bool := (nat_of_ascii c <? 128)%nat.

Definition ascii_text (s : string) : bool := all_chars is_ascii_char s.

(** The character [c] does not occur in [s]. *)
Definition lacks (c : ascii) (s : string) : bool :=
  all_chars (fun x => negb (Ascii.eqb x c)) s.

Definition identifier (s : string) : bool :=
  match s with
  | EmptyString => false
  | String c _ => negb (is_digit c) && all_chars identifier_char s
  end.

(** The distinct tags of a variant list, in first-occurrence order. *)
Fixpoint distinct_from (seen : list Tag) (tags : list Tag) : list Tag :=
  match tags with
  | [] => []
  | t :: tags' =>
      if bool_decide (t ∈ seen) then distinct_from seen tags'
      else t :: distinct_from (t :: seen) tags'
  end.

Definition distinct_tags (ast : list AST_Class) : list Tag :=
  distinct_from [] (map name ast).

(** The visitor-interface declarations of the file a run emits. *)
Definition emitted_visitor_methods (output_dir base_name : string)
    (ast : list AST_Class) (w : World) : option (list MethodDecl) :=
  text ← emitted output_dir base_name ast w; visitor_methods text.

(** [text] holds [block] between [before] and [after]. *)
Definition holds_block (text before block after : string) : Prop :=
  text = before +:+ block +:+ after.

(* ================================================================== *)
(** ** The specification's wording of a class block                    *)
(* ================================================================== *)

Module Spec.

(** A field rendered as its kind, a space and its name. *)
Definition field (f : Param) : string :=
  Parameter_Type_str (param_type f) +:+ " " +:+ param_name f.

(** The constructor parameter list: the fields in declared order,
    separated by a comma and a space. *)
Definition constructor_parameter_list (fields : list Param) : string :=
  join ", " (map field fields).

(** The constructor body: each parameter assigned to the instance
    field of the same name, in declared order. *)
Definition assignment (f : Param) : string :=
  "        this." +:+ param_name f +:+ " = " +:+ param_name f +:+ ";" +:+ LF.

Definition constructor_body (fields : list Param) : string :=
  join "" (map assignment fields).

(** The final field declarations, in declared order. *)
Definition final_field (f : Param) : string :=
  "    final " +:+ field f +:+ ";" +:+ LF.

Definition final_field_declarations (fields : list Param) : string :=
  join "" (map final_field fields).

(** The accept method that dispatches to the visitor method [target]. *)
Definition accept_method (target : string) : string :=
  "    @Override" +:+ LF
    +:+ "    <R> R accept(Visitor<R> visitor) {" +:+ LF
    +:+ "        return visitor." +:+ target +:+ "(this);" +:+ LF
    +:+ "    }" +:+ LF +:+ LF.

(** The name of the visitor method of tag [t] in family [base_name]. *)
Definition visit_name (t : Tag) (base_name : string) : string :=
  "visit" +:+ Tag_str t +:+ base_name.

(** The whole class block of a variant. *)
Definition class_block (v : AST_Class) : string :=
  "  static class " +:+ Tag_str (name v) +:+ " extends " +:+ base_name v
    +:+ " {" +:+ LF
    +:+ "    " +:+ Tag_str (name v) +:+ "("
    +:+ constructor_parameter_list (parameters v) +:+ ") {" +:+ LF
    +:+ constructor_body (parameters v)
    +:+ "    }" +:+ LF +:+ LF
    +:+ accept_method (visit_name (name v) (base_name v))
    +:+ final_field_declarations (parameters v)
    +:+ "  }" +:+ LF +:+ LF.

End Spec.

(* ================================================================== *)
(** ** Concrete inputs                                                 *)
(* ================================================================== *)

(** A world with no file and nothing printed. *)
Definition empty_world : World := mkWorld ∅ "".

(** Family "Expression" with the single variant Literal(Object value). *)
Definition literal_variant : AST_Class :=
  mkAST_Class "Expression" (ExprTag LITERAL) [mkParameter OBJECT "value"].

Definition scenario_A : list AST_Class := [literal_variant].

(** The Print variant of the Statement catalog. *)
Definition print_variant : AST_Class :=
  mkAST_Class "Statement" (StmtTag PRINT) [mkParameter EXPRESSION "expression"].

(** A list that mixes the two enumerations. *)
Definition mixed_family : list AST_Class :=
  [literal_variant;
   mkAST_Class "Expression" (StmtTag PRINT)
     [mkParameter EXPRESSION "expression"]].

(** The six declarations of the Expression visitor interface. *)
Definition expression_visitor_methods : list MethodDecl := [
  mkMethodDecl "R" "visitAssignExpression" "Assign" "expression";
  mkMethodDecl "R" "visitBinaryExpression" "Binary" "expression";
  mkMethodDecl "R" "visitGroupingExpression" "Grouping" "expression";
  mkMethodDecl "R" "visitLiteralExpression" "Literal" "expression";
  mkMethodDecl "R" "visitUnaryExpression" "Unary" "expression";
  mkMethodDecl "R" "visitVariableExpression" "Variable" "expression"
].

(** The same variant twice: a repeated tag. *)
Definition repeated_literal : list AST_Class :=
  [literal_variant; literal_variant].

(** What the run on [scenario_A] writes, line by line. *)
Definition scenario_A_lines : list string := [
  "// This file was generated using tool/generate_ast.py any changes made";
  "// here may be overwritten.";
  "package com.cthuloops.jlox;";
  "";
  "import java.util.List;";
  "";
  "abstract class Expression {";
  "  interface Visitor<R> {";
  "    R visitAssignExpression(Assign expression);";
  "    R visitBinaryExpression(Binary expression);";
  "    R visitGroupingExpression(Grouping expression);";
  "    R visitLiteralExpression(Literal expression);";
  "    R visitUnaryExpression(Unary expression);";
  "    R visitVariableExpression(Variable expression);";
  "  }";
  "";
  "  static class Literal extends Expression {";
  "    Literal(Object value) {";
  "        this.value = value;";
  "    }";
  "";
  "    @Override";
  "    <R> R accept(Visitor<R> visitor) {";
  "        return visitor.visitLiteralExpression(this);";
  "    }";
  "";
  "    final Object value;";
  "  }";
  "";
  "  // Base accept method";
  "  abstract <R> R accept(Visitor<R> visitor);";
  "}"
].

Definition scenario_A_text : string :=
  join "" (map (fun l => l +:+ LF) scenario_A_lines).

(** The usage line of [main]. *)
Definition usage : string := "Usage: generate_ast <output directory>".

(* ================================================================== *)
(** ** Reading class blocks back                                       *)
(* ================================================================== *)

(** A text made of the given lines, each ended by a line feed. *)
Definition unlines (ls : list string) : string :=
  join "" (map (fun l => l +:+ LF) ls).

(** [s.removeprefix(p)] when [s.startswith(p)], nothing otherwise. *)
Fixpoint strip_prefix (p s : string) : option string :=
  match p with
  | EmptyString => Some s
  | String a p' =>
      match s with
      | String b s' => if Ascii.eqb a b then strip_prefix p' s' else None
      | EmptyString => None
      end
  end.

(** The class a line declares: the word after [static class]. *)
Definition class_name_of_line (l : string) : option string :=
  rest ← strip_prefix "  static class " l;
  '(nm, _) ← split_at " " rest;
  Some nm.

(** The classes declared in [text], in the order of the text. *)
Definition class_names (text : string) : list string :=
  omap class_name_of_line (split_lines text).

(** The visitor method a line dispatches to: what stands between
    [return visitor.] and the opening parenthesis. *)
Definition accept_target_of_line (l : string) : option string :=
  rest ← strip_prefix "        return visitor." l;
  '(nm, _) ← split_at "(" rest;
  Some nm.

(** The visitor methods the accept methods of [text] dispatch to, in
    the order of the text. *)
Definition accept_targets (text : string) : list string :=
  omap accept_target_of_line (split_lines text).

(** A variant whose family name and field names are identifiers. *)
Definition wf_variant (v : AST_Class) : bool :=
  identifier (base_name v)
  && forallb (fun p => identifier (param_name p)) (parameters v).

(** The lines of the class block of a variant. *)
Definition block_lines (v : AST_Class) : list string :=
  ([ "  static class " +:+ Tag_str (name v) +:+ " extends " +:+ base_name v
       +:+ " {";
     "    " +:+ Tag_str (name v) +:+ "("
       +:+ join ", " (map Parameter_str (parameters v)) +:+ ") {" ]
   ++ map (fun p => "        this." +:+ param_name p +:+ " = "
                      +:+ param_name p +:+ ";")
          (parameters v)
   ++ [ "    }";
        "";
        "    @Override";
        "    <R> R accept(Visitor<R> visitor) {";
        "        return visitor.visit" +:+ Tag_str (name v) +:+ base_name v
          +:+ "(this);";
        "    }";
        "" ]
   ++ map (fun p => "    final " +:+ Parameter_str p +:+ ";") (parameters v)
   ++ [ "  }"; "" ])%list.

(** The lines of the family file. *)
Definition family_lines (base : string) (enum_type : EnumClass)
    (ast : list AST_Class) : list string :=
  ([ "// This file was generated using tool/generate_ast.py any changes made";
     "// here may be overwritten.";
     "package com.cthuloops.jlox;";
     "";
     "import java.util.List;";
     "";
     "abstract class " +:+ base +:+ " {";
     "  interface Visitor<R> {" ]
   ++ map (fun t => method_decl_line base (Tag_str t)) (members enum_type)
   ++ [ "  }"; "" ]
   ++ List.concat (map block_lines ast)
   ++ [ "  // Base accept method";
        "  abstract <R> R accept(Visitor<R> visitor);";
        "}" ])%list.

(** How often [n] occurs in [names]. *)
Definition occurrences (n : string) (names : list string) : nat :=
  List.length (filter (fun x => x = n) names).

(** A family whose variants repeat the tags Expr and Print. *)
Definition repeated_statements : list AST_Class :=
  (build_statements_default ++ build_statements_default)%list.

(* ================================================================== *)
(** ** The model at work                                               *)
(* ================================================================== *)

Example path_join_examples :
  path_join "out" "Expression.java" = "out/Expression.java"
  /\ path_join "out/" "Expression.java" = "out/Expression.java"
  /\ path_join "" "Expression.java" = "Expression.java"
  /\ path_join "out" "/tmp/Expression.java" = "/tmp/Expression.java".
Proof. repeat split. Qed.

Example casefold_examples :
  casefold "Expression" = "expression"
  /\ casefold "AST_Node9" = "ast_node9".
Proof. repeat split. Qed.

Example identifier_examples :
  identifier "Expression" = true
  /\ identifier "" = false
  /\ identifier "9lives" = false
  /\ identifier "two words" = false.
Proof. repeat split. Qed.

Example Parameter_str_example :
  Parameter_str (mkParameter TOKEN "operator") = "Token operator".
Proof. reflexivity. Qed.

Example AST_Class_str_literal :
  split_lines (AST_Class_str literal_variant)
  = [ "  static class Literal extends Expression {";
      "    Literal(Object value) {";
      "        this.value = value;";
      "    }";
      "";
      "    @Override";
      "    <R> R accept(Visitor<R> visitor) {";
      "        return visitor.visitLiteralExpression(this);";
      "    }";
      "";
      "    final Object value;";
      "  }";
      "";
      "" ].
Proof. reflexivity. Qed.

Example parse_method_decl_example :
  parse_method_decl "    R visitVarStatement(Var statement);"
  = Some (mkMethodDecl "R" "visitVarStatement" "Var" "statement")
  /\ parse_method_decl "    final Object value;" = None.
Proof. split; reflexivity. Qed.

(** The Statement catalog: three declarations in declared order, and the
    Var class with its two fields in declared order. *)
Example statement_family_emitted :
  emitted_visitor_methods "out" "Statement" build_statements_default
    empty_world
  = Some [mkMethodDecl "R" "visitExprStatement" "Expr" "statement";
          mkMethodDecl "R" "visitPrintStatement" "Print" "statement";
          mkMethodDecl "R" "visitVarStatement" "Var" "statement"]
  /\ (text ← emitted "out" "Statement" build_statements_default empty_world;
      Some (contains ("    Var(Token name, Expression initializer) {" +:+ LF)
                     text
            && contains ("    final Token name;" +:+ LF
                           +:+ "    final Expression initializer;" +:+ LF)
                        text))
     = Some true.
Proof. split; vm_compute; reflexivity. Qed.

(* ================================================================== *)
(** ** Strings                                                         *)
(* ================================================================== *)

(** Let [simpl] run [+:+] on a text that starts with known characters. *)
#[local] Arguments String.append !_ _ : simpl nomatch.

Section strings.
Implicit Types s t u : string.

Lemma append_assoc s t u : (s +:+ t) +:+ u = s +:+ (t +:+ u).
Proof. induction s as [|c s IH]; simpl; [done | by rewrite IH]. Qed.

Lemma append_nil_r s : s +:+ "" = s.
Proof. induction s as [|c s IH]; simpl; [done | by rewrite IH]. Qed.

Lemma length_append s t :
  String.length (s +:+ t) = String.length s + String.length t.
Proof. induction s as [|c s IH]; simpl; [done | by rewrite IH]. Qed.

(** Appending the same text on the right is injective. *)
Lemma append_inj_r s t u : s +:+ u = t +:+ u -> s = t.
Proof.
  revert t. induction s as [|c s IH]; intros [|d t] H; simpl in *.
  - done.
  - apply (f_equal String.length) in H. simpl in H.
    rewrite length_append in H. lia.
  - apply (f_equal String.length) in H. simpl in H.
    rewrite length_append in H. lia.
  - injection H as -> H. f_equal. by apply IH.
Qed.

Lemma join_cons x (l : list string) : join "" (x :: l) = x +:+ join "" l.
Proof. destruct l; simpl; [by rewrite append_nil_r | done]. Qed.

Lemma join_nil : join "" [] = "".
Proof. done. Qed.

Lemma join_app (l1 l2 : list string) :
  join "" (l1 ++ l2)%list = join "" l1 +:+ join "" l2.
Proof.
  induction l1 as [|x l1 IH]; [done |].
  rewrite <- app_comm_cons, !join_cons, IH. by rewrite append_assoc.
Qed.

End strings.

(* ================================================================== *)
(** ** What [define_ast] and [main] do to the world                    *)
(* ================================================================== *)

Lemma bind_Return {A B} (m : M A) (f : A -> M B) w a w' :
  m w = (Return a, w') -> (m ≫= f) w = f a w'.
Proof. intros H. unfold mbind, M_bind. by rewrite H. Qed.

(** Writing to a file that is open with content [c] appends to [c]. *)
Lemma write_open filepath s c (m : gmap string string) e :
  write filepath s (mkWorld (<[filepath := c]> m) e)
  = (Return tt, mkWorld (<[filepath := c +:+ s]> m) e).
Proof. unfold write. simpl. by rewrite alter_insert_eq. Qed.

Lemma writelines_open filepath ls c (m : gmap string string) e :
  writelines filepath ls (mkWorld (<[filepath := c]> m) e)
  = (Return tt, mkWorld (<[filepath := c +:+ join "" ls]> m) e).
Proof.
  revert c. induction ls as [|l ls IH]; intros c.
  - simpl. by rewrite append_nil_r.
  - cbn [writelines].
    rewrite (bind_Return _ _ _ _ _ (write_open filepath l c m e)).
    rewrite IH, join_cons. by rewrite append_assoc.
Qed.

(** A run on a non-empty variant list returns, and leaves [family_text]
    in the family file; nothing else changes. *)
Lemma define_ast_cons output_dir base_name a rest w :
  define_ast output_dir base_name (a :: rest) w
  = (Return tt,
     mkWorld (<[path_join output_dir (base_name +:+ ".java")
                := family_text base_name (type_of (name a)) (a :: rest)]>
                (files w))
             (stderr w)).
Proof.
  unfold define_ast.
  set (filepath := path_join _ _).
  erewrite bind_Return by reflexivity.
  erewrite bind_Return by reflexivity.
  erewrite bind_Return by apply writelines_open.
  erewrite bind_Return by apply write_open.
  erewrite bind_Return by apply writelines_open.
  erewrite bind_Return by apply write_open.
  rewrite write_open.
  do 2 f_equal. f_equal.
  unfold family_text, header_text.
  rewrite !append_assoc. reflexivity.
Qed.

(** A run on the empty list raises before the file is opened. *)
Lemma define_ast_nil output_dir base_name w :
  define_ast output_dir base_name [] w = (Raise IndexError, w).
Proof. reflexivity. Qed.

Lemma emitted_cons output_dir base_name a rest w :
  emitted output_dir base_name (a :: rest) w
  = Some (family_text base_name (type_of (name a)) (a :: rest)).
Proof.
  unfold emitted. rewrite define_ast_cons. simpl.
  by rewrite lookup_insert_eq.
Qed.

Lemma emitted_nil output_dir base_name w :
  emitted output_dir base_name [] w = None.
Proof. reflexivity. Qed.

(* ================================================================== *)
(** ** Reading lines and declarations back                             *)
(* ================================================================== *)

Section reading.
Implicit Types s t : string.
Implicit Types c : ascii.

Lemma all_chars_append P s t :
  all_chars P (s +:+ t) = all_chars P s && all_chars P t.
Proof.
  induction s as [|x s IH]; simpl; [done |].
  by rewrite IH, andb_assoc.
Qed.

Lemma lacks_append c s t : lacks c (s +:+ t) = lacks c s && lacks c t.
Proof. apply all_chars_append. Qed.

Lemma all_chars_impl (P Q : ascii -> bool) s :
  (forall x, P x = true -> Q x = true) ->
  all_chars P s = true -> all_chars Q s = true.
Proof.
  intros HPQ. induction s as [|x s IH]; simpl; [done |].
  rewrite !andb_true_iff. intros [Hx Hs]. auto.
Qed.

Lemma split_lines_String s t :
  lacks newline s = true ->
  split_lines (s +:+ String newline t) = s :: split_lines t.
Proof.
  unfold lacks. induction s as [|x s IH]; simpl; [done |].
  rewrite andb_true_iff, negb_true_iff. intros [Hx Hs].
  by rewrite Hx, (IH Hs).
Qed.

Lemma split_lines_line s t :
  lacks newline s = true ->
  split_lines (s +:+ LF +:+ t) = s :: split_lines t.
Proof. apply split_lines_String. Qed.

(** A text made of newline-free lines, each ended by a line feed,
    splits back into those lines. *)
Lemma split_lines_join (ls : list string) t :
  Forall (fun l => lacks newline l = true) ls ->
  split_lines (join "" (map (fun l => l +:+ LF) ls) +:+ t)
  = (ls ++ split_lines t)%list.
Proof.
  induction 1 as [|l ls Hl _ IH]; [done |].
  rewrite map_cons, join_cons, !append_assoc.
  by rewrite split_lines_line, IH.
Qed.

Lemma before_line_app marker (ls rest : list string) :
  Forall (fun l => String.eqb l marker = false) ls ->
  before_line marker (ls ++ marker :: rest)%list = ls.
Proof.
  induction 1 as [|l ls Hl _ IH]; simpl.
  - by rewrite String.eqb_refl.
  - by rewrite Hl, IH.
Qed.

Lemma split_at_app c s t :
  lacks c s = true -> split_at c (s +:+ String c t) = Some (s, t).
Proof.
  unfold lacks. induction s as [|x s IH]; simpl.
  - by rewrite Ascii.eqb_refl.
  - rewrite andb_true_iff, negb_true_iff. intros [Hx Hs].
    by rewrite Hx, (IH Hs).
Qed.

Lemma mapM_map_Some {A B C} (f : B -> option C) (g : A -> B) (h : A -> C)
    (l : list A) :
  (forall x, x ∈ l -> f (g x) = Some (h x)) ->
  mapM f (map g l) = Some (map h l).
Proof.
  induction l as [|x l IH]; intros H; [done |].
  simpl. rewrite H by left. simpl.
  rewrite IH; [done |]. intros y Hy. apply H. by right.
Qed.

End reading.

(** What identifier characters are not, and that case folding keeps
    them identifier characters. *)
Lemma identifier_char_facts c :
  identifier_char c = true ->
  Ascii.eqb c newline = false /\ Ascii.eqb c " " = false
  /\ Ascii.eqb c "(" = false /\ Ascii.eqb c ")" = false
  /\ identifier_char (casefold_ascii c) = true.
Proof.
  destruct c as [[] [] [] [] [] [] [] []]; vm_compute; intros H;
    first [discriminate H | repeat split].
Qed.

Lemma identifier_all_chars s :
  identifier s = true -> all_chars identifier_char s = true.
Proof.
  destruct s as [|c s]; [done |]. unfold identifier.
  rewrite andb_true_iff. tauto.
Qed.

Lemma all_chars_casefold s :
  all_chars identifier_char s = true ->
  all_chars identifier_char (casefold s) = true.
Proof.
  induction s as [|c s IH]; simpl; [done |].
  rewrite !andb_true_iff. intros [Hc Hs]. split; [| auto].
  by apply identifier_char_facts.
Qed.

Lemma identifier_chars_lack c s :
  c ∈ [newline; " "; "("; ")"]%char ->
  all_chars identifier_char s = true -> lacks c s = true.
Proof.
  intros Hc. apply all_chars_impl. intros x Hx.
  apply identifier_char_facts in Hx as (H1 & H2 & H3 & H4 & _).
  apply negb_true_iff.
  repeat (apply elem_of_cons in Hc as [-> | Hc]; [done |]).
  by apply elem_of_nil in Hc.
Qed.

Lemma identifier_lacks c s :
  c ∈ [newline; " "; "("; ")"]%char ->
  identifier s = true -> lacks c s = true.
Proof. intros Hc Hs. by apply identifier_chars_lack, identifier_all_chars. Qed.

Lemma casefold_identifier_lacks c s :
  c ∈ [newline; " "; "("; ")"]%char ->
  identifier s = true -> lacks c (casefold s) = true.
Proof.
  intros Hc Hs.
  by apply identifier_chars_lack, all_chars_casefold, identifier_all_chars.
Qed.

Lemma Tag_str_chars t : all_chars identifier_char (Tag_str t) = true.
Proof. by destruct t as [[]|[]]. Qed.

Lemma Tag_str_inj t1 t2 : Tag_str t1 = Tag_str t2 -> t1 = t2.
Proof. destruct t1 as [[]|[]], t2 as [[]|[]]; simpl; congruence. Qed.

(* ================================================================== *)
(** ** The visitor interface of the emitted text                       *)
(* ================================================================== *)

Section interface.
Variable base : string.
Hypothesis base_identifier : identifier base = true.

Lemma method_decl_line_lacks_newline t :
  lacks newline (method_decl_line base (Tag_str t)) = true.
Proof.
  unfold method_decl_line. rewrite !lacks_append.
  rewrite (identifier_lacks newline base) by (done || set_solver).
  rewrite (casefold_identifier_lacks newline base) by (done || set_solver).
  rewrite (identifier_chars_lack newline (Tag_str t))
    by (apply Tag_str_chars || set_solver).
  reflexivity.
Qed.

Lemma method_decl_line_not_close t :
  String.eqb (method_decl_line base (Tag_str t)) "  }" = false.
Proof. reflexivity. Qed.

(** Reading one emitted declaration line gives the declaration. *)
Lemma parse_method_decl_line t :
  parse_method_decl (method_decl_line base (Tag_str t))
  = Some (visitor_method base t).
Proof.
  unfold parse_method_decl, method_decl_line. simpl.
  rewrite <- (append_assoc (Tag_str t) base).
  rewrite split_at_app; cycle 1.
  { rewrite lacks_append, (identifier_lacks "(" base) by (done || set_solver).
    rewrite (identifier_chars_lack "(" (Tag_str t))
      by (apply Tag_str_chars || set_solver).
    reflexivity. }
  simpl.
  rewrite split_at_app
    by (apply identifier_chars_lack; [set_solver | apply Tag_str_chars]).
  simpl.
  change (casefold base +:+ ");") with (casefold base +:+ String ")" ";").
  rewrite split_at_app
    by (apply casefold_identifier_lacks; [set_solver | done]).
  reflexivity.
Qed.

Lemma header_lines_no_open (rest : list string) :
  after_line "  interface Visitor<R> {"
    ("// This file was generated using tool/generate_ast.py any changes made"
     :: "// here may be overwritten."
     :: "package com.cthuloops.jlox;"
     :: ""
     :: "import java.util.List;"
     :: ""
     :: ("abstract class " +:+ base +:+ " {")
     :: "  interface Visitor<R> {"
     :: rest)
  = rest.
Proof. reflexivity. Qed.

(** The lines of the emitted text: the header, the visitor interface
    with one line per member of the enumeration, then the rest. *)
Lemma family_text_lines enum_type ast :
  exists rest,
    split_lines (family_text base enum_type ast)
    = ("// This file was generated using tool/generate_ast.py any changes made"
       :: "// here may be overwritten."
       :: "package com.cthuloops.jlox;"
       :: ""
       :: "import java.util.List;"
       :: ""
       :: ("abstract class " +:+ base +:+ " {")
       :: "  interface Visitor<R> {"
       :: map (fun t => method_decl_line base (Tag_str t)) (members enum_type)
       ++ "  }" :: "" :: rest)%list.
Proof.
  exists (split_lines (join "" (map AST_Class_str ast)
                        +:+ base_accept_method +:+ "}" +:+ LF)).
  set (tail := join "" (map AST_Class_str ast) +:+ _).
  set (decls := map (fun t => method_decl_line base (Tag_str t))
                    (members enum_type)).
  set (head := ["// This file was generated using tool/generate_ast.py any changes made";
                "// here may be overwritten.";
                "package com.cthuloops.jlox;"; "";
                "import java.util.List;"; "";
                "abstract class " +:+ base +:+ " {";
                "  interface Visitor<R> {"]).
  assert (Htext : family_text base enum_type ast
                  = join "" (map (fun l => l +:+ LF) head)
                    +:+ join "" (map (fun l => l +:+ LF) decls)
                    +:+ join "" (map (fun l => l +:+ LF) ["  }"; ""])
                    +:+ tail).
  { unfold family_text, header_text, generate_visitor_interface.
    subst decls. rewrite !map_map.
    rewrite (map_ext _ (fun t => method_decl_line base (Tag_str t) +:+ LF));
      cycle 1.
    { intros t. unfold method_decl_line. by rewrite !append_assoc. }
    subst head tail. cbn [map]. rewrite !join_cons, join_nil.
    rewrite !append_assoc. reflexivity. }
  rewrite Htext.
  rewrite split_lines_join; cycle 1.
  { subst head. repeat (apply Forall_cons; split); try done.
    rewrite !lacks_append, (identifier_lacks newline base)
      by (done || set_solver).
    reflexivity. }
  rewrite split_lines_join; cycle 1.
  { subst decls. apply Forall_map, Forall_forall.
    intros t _. apply method_decl_line_lacks_newline. }
  rewrite split_lines_join by (repeat constructor).
  reflexivity.
Qed.

Lemma visitor_interface_lines_family_text enum_type ast :
  visitor_interface_lines (family_text base enum_type ast)
  = map (fun t => method_decl_line base (Tag_str t)) (members enum_type).
Proof.
  unfold visitor_interface_lines.
  destruct (family_text_lines enum_type ast) as [rest ->].
  rewrite header_lines_no_open.
  apply before_line_app, Forall_map, Forall_forall.
  intros t _. apply method_decl_line_not_close.
Qed.

(** The declarations read back from the emitted text are those of the
    members of the enumeration, in declaration order. *)
Lemma visitor_methods_family_text enum_type ast :
  visitor_methods (family_text base enum_type ast)
  = Some (map (visitor_method base) (members enum_type)).
Proof.
  unfold visitor_methods. rewrite visitor_interface_lines_family_text.
  apply mapM_map_Some. intros t _. apply parse_method_decl_line.
Qed.

(** Distinct tags give distinct method names. *)
Lemma visitor_method_name_inj t1 t2 :
  method_name (visitor_method base t1) = method_name (visitor_method base t2)
  -> t1 = t2.
Proof.
  simpl. intros H. injection H as H.
  apply append_inj_r in H. by apply Tag_str_inj.
Qed.

End interface.

Lemma emitted_visitor_methods_cons output_dir base_name first rest w :
  identifier base_name = true ->
  emitted_visitor_methods output_dir base_name (first :: rest) w
  = Some (map (visitor_method base_name) (members (type_of (name first)))).
Proof.
  intros Hbase. unfold emitted_visitor_methods.
  rewrite emitted_cons. simpl.
  by apply visitor_methods_family_text.
Qed.

Lemma elem_of_members t c : t ∈ members c <-> type_of t = c.
Proof.
  destruct c, t as [[]|[]]; simpl; split; intros H;
    first [ reflexivity | discriminate H | compute_done
          | exfalso; revert H;
            match goal with |- ?P -> False => change (~ P) end;
            compute_done ].
Qed.

Lemma NoDup_members c : NoDup (members c).
Proof. destruct c; compute_done. Qed.

(** In the declarations of a duplicate-free list of tags, the name of
    the method of [t] occurs once if [t] is listed and never otherwise. *)
Lemma count_named_visitor_method base t (tags : list Tag) :
  NoDup tags ->
  count_named (method_name (visitor_method base t))
              (map (visitor_method base) tags)
  = if bool_decide (t ∈ tags) then 1 else 0.
Proof.
  unfold count_named.
  induction 1 as [|u tags Hu Hnd IH].
  - done.
  - rewrite map_cons, filter_cons.
    destruct (decide (method_name (visitor_method base u)
                      = method_name (visitor_method base t))) as [E|NE].
    + apply visitor_method_name_inj in E as ->.
      rewrite length_cons, IH.
      rewrite (bool_decide_eq_false_2 _ Hu).
      rewrite bool_decide_eq_true_2 by left. done.
    + rewrite IH.
      destruct (decide (t ∈ tags)) as [Hin|Hout].
      * rewrite !bool_decide_eq_true_2; [done | by right | done].
      * rewrite !bool_decide_eq_false_2; [done | | done].
        intros [->|?]%elem_of_cons; [by apply NE | done].
Qed.

Lemma NoDup_visitor_method_names base (tags : list Tag) :
  NoDup tags -> NoDup (map method_name (map (visitor_method base) tags)).
Proof.
  intros Hnd. rewrite map_map.
  change (NoDup ((fun t => method_name (visitor_method base t)) <$> tags)).
  apply NoDup_fmap_2_strong; [| done].
  intros t1 t2 _ _. apply visitor_method_name_inj.
Qed.

(* ================================================================== *)
(** ** The visitor interface follows the enumeration                   *)
(* ================================================================== *)

(** C10.  For every ASCII base name and every non-empty variant list,
    the emitted file holds, right after the header, a visitor-interface
    block made of one declaration line per member of the enumeration of
    the first variant's tag, in declaration order: Assign, Binary,
    Grouping, Literal, Unary, Variable when the first tag is an
    Expression tag, and Expr, Print, Var when it is a Statement tag.
    Each line has the shape [R visit<t><base>(<t> <casefolded base>);].
    When the base name is an identifier, the declarations read back from
    the text are exactly these: one method per member, named
    [visit<t><base>], with one parameter of type [t] named by the
    case-folded base name.  The block depends on the base name and on
    that enumeration only: any other non-empty list whose first tag
    belongs to the same enumeration gets the same declarations, whatever
    tags follow. *)
Theorem visitor_interface_follows_enumeration
    (output_dir base : string) (first : AST_Class)
    (rest : list AST_Class) (w : World) :
  ascii_text base = true ->
  let member_names :=
    match name first with
    | ExprTag _ =>
        ["Assign"; "Binary"; "Grouping"; "Literal"; "Unary"; "Variable"]
    | StmtTag _ => ["Expr"; "Print"; "Var"]
    end in
  exists text,
    emitted output_dir base (first :: rest) w = Some text
    /\ holds_block text
         (header_text base)
         ("  interface Visitor<R> {" +:+ LF
            +:+ join "" (map (fun t => "    R visit" +:+ t +:+ base
                                         +:+ "(" +:+ t +:+ " "
                                         +:+ casefold base +:+ ");" +:+ LF)
                             member_names)
            +:+ "  }" +:+ LF +:+ LF)
         (join "" (map AST_Class_str (first :: rest))
            +:+ base_accept_method +:+ "}" +:+ LF)
    /\ (identifier base = true ->
        visitor_methods text
        = Some (map (fun t => mkMethodDecl "R" ("visit" +:+ t +:+ base) t
                                (casefold base))
                    member_names)
        /\ forall output_dir' first' rest' w',
             type_of (name first') = type_of (name first) ->
             emitted_visitor_methods output_dir' base (first' :: rest') w'
             = visitor_methods text).
Proof.
  intros _ member_names.
  assert (Hnames : map Tag_str (members (type_of (name first)))
                   = member_names).
  { subst member_names. by destruct (name first). }
  exists (family_text base (type_of (name first)) (first :: rest)).
  split; [apply emitted_cons |]. split.
  - unfold holds_block, family_text, generate_visitor_interface.
    rewrite Hnames, !append_assoc. reflexivity.
  - intros Hbase.
    assert (Hread : visitor_methods
                      (family_text base (type_of (name first)) (first :: rest))
                    = Some (map (fun t => mkMethodDecl "R"
                                            ("visit" +:+ t +:+ base) t
                                            (casefold base))
                                member_names)).
    { rewrite visitor_methods_family_text by done.
      by rewrite <- Hnames, map_map. }
    split; [exact Hread |].
    intros output_dir' first' rest' w' Hsame.
    rewrite emitted_visitor_methods_cons, Hsame by done.
    symmetry. by apply visitor_methods_family_text.
Qed.

Lemma visitor_interface_follows_enumeration_witness :
  (ascii_text "Expression" = true
   /\ identifier "Expression" = true
   /\ emitted_visitor_methods "out" "Expression"
        (literal_variant :: [print_variant]) empty_world
      = Some [mkMethodDecl "R" "visitAssignExpression" "Assign" "expression";
              mkMethodDecl "R" "visitBinaryExpression" "Binary" "expression";
              mkMethodDecl "R" "visitGroupingExpression" "Grouping"
                "expression";
              mkMethodDecl "R" "visitLiteralExpression" "Literal" "expression";
              mkMethodDecl "R" "visitUnaryExpression" "Unary" "expression";
              mkMethodDecl "R" "visitVariableExpression" "Variable"
                "expression"])
  /\ (ascii_text "Statement" = true
      /\ identifier "Statement" = true
      /\ emitted_visitor_methods "out" "Statement"
           (print_variant :: repeated_literal) empty_world
         = Some [mkMethodDecl "R" "visitExprStatement" "Expr" "statement";
                 mkMethodDecl "R" "visitPrintStatement" "Print" "statement";
                 mkMethodDecl "R" "visitVarStatement" "Var" "statement"]).
Proof.
  split.
  - split; [reflexivity |]. split; [reflexivity |].
    destruct (visitor_interface_follows_enumeration "out" "Expression"
                literal_variant [print_variant] empty_world eq_refl)
      as (text & Hemitted & _ & Hread).
    destruct (Hread eq_refl) as [Hdecls _].
    unfold emitted_visitor_methods. rewrite Hemitted. exact Hdecls.
  - split; [reflexivity |]. split; [reflexivity |].
    destruct (visitor_interface_follows_enumeration "out" "Statement"
                print_variant repeated_literal empty_world eq_refl)
      as (text & Hemitted & _ & Hread).
    destruct (Hread eq_refl) as [Hdecls _].
    unfold emitted_visitor_methods. rewrite Hemitted. exact Hdecls.
Defined.

(* ================================================================== *)
(** ** How many methods the visitor interface declares                 *)
(* ================================================================== *)

(** C1, as the code has it.  For every base name that is an identifier
    and every non-empty variant list, the number of method declarations
    in the visitor interface of the emitted file is the number of
    members of the enumeration of the first variant's tag, and the
    methods appear in that enumeration's declaration order.  This is the
    number of distinct tags of the list, in first-occurrence order, when
    the distinct tags in first-occurrence order are exactly the members
    of that enumeration in declaration order. *)
Theorem visitor_interface_count
    (output_dir base_name : string) (ast : list AST_Class) (w : World) :
  ast <> [] ->
  identifier base_name = true ->
  exists first decls,
    head ast = Some first
    /\ emitted_visitor_methods output_dir base_name ast w = Some decls
    /\ List.length decls = List.length (members (type_of (name first)))
    /\ decls = map (visitor_method base_name) (members (type_of (name first)))
    /\ (distinct_tags ast = members (type_of (name first)) ->
        List.length decls = List.length (distinct_tags ast)
        /\ decls = map (visitor_method base_name) (distinct_tags ast)).
Proof.
  intros Hne Hbase. destruct ast as [|first rest]; [done |].
  exists first, (map (visitor_method base_name) (members (type_of (name first)))).
  split; [done |]. split; [by apply emitted_visitor_methods_cons |].
  split; [by rewrite length_map |]. split; [done |].
  intros ->. by rewrite length_map.
Qed.

Lemma visitor_interface_count_witness :
  build_statements_default <> []
  /\ identifier "Statement" = true
  /\ exists first decls,
       head build_statements_default = Some first
       /\ emitted_visitor_methods "out" "Statement" build_statements_default
            empty_world = Some decls
       /\ List.length decls = List.length (members (type_of (name first)))
       /\ decls = map (visitor_method "Statement")
                      (members (type_of (name first)))
       /\ (distinct_tags build_statements_default
           = members (type_of (name first)) ->
           List.length decls = List.length (distinct_tags build_statements_default)
           /\ decls = map (visitor_method "Statement")
                          (distinct_tags build_statements_default)).
Proof.
  split; [discriminate |]. split; [reflexivity |].
  apply (visitor_interface_count "out" "Statement" build_statements_default
           empty_world); [discriminate | reflexivity].
Defined.

(** C1, as stated, fails on the single-variant family of scenario A: the
    list has one distinct tag and the emitted interface declares six
    methods. *)
Lemma visitor_interface_count_not_distinct_tags :
  scenario_A <> []
  /\ exists decls,
       emitted_visitor_methods "out" "Expression" scenario_A empty_world
       = Some decls
       /\ List.length decls = 6
       /\ List.length (distinct_tags scenario_A) = 1
       /\ List.length decls <> List.length (distinct_tags scenario_A).
Proof.
  split; [discriminate |].
  eexists. split; [vm_compute; reflexivity |].
  repeat split. discriminate.
Qed.

(* ================================================================== *)
(** ** Repeated tags                                                   *)
(* ================================================================== *)

(** C3, as the code has it.  For every base name that is an identifier
    and every non-empty variant list, however often a tag is repeated in
    the list, no two declarations of the emitted visitor interface share
    a name: the name [visit<t><base>] is declared exactly once when [t]
    belongs to the enumeration of the first variant's tag, and not at
    all otherwise. *)
Theorem visitor_method_names_unique
    (output_dir base_name : string) (ast : list AST_Class) (w : World)
    (t : Tag) :
  ast <> [] ->
  identifier base_name = true ->
  exists first decls,
    head ast = Some first
    /\ emitted_visitor_methods output_dir base_name ast w = Some decls
    /\ NoDup (map method_name decls)
    /\ count_named ("visit" +:+ Tag_str t +:+ base_name) decls
       = if bool_decide (type_of t = type_of (name first)) then 1 else 0.
Proof.
  intros Hne Hbase. destruct ast as [|first rest]; [done |].
  exists first, (map (visitor_method base_name) (members (type_of (name first)))).
  split; [done |]. split; [by apply emitted_visitor_methods_cons |].
  split; [apply NoDup_visitor_method_names, NoDup_members |].
  change ("visit" +:+ Tag_str t +:+ base_name)
    with (method_name (visitor_method base_name t)).
  rewrite count_named_visitor_method by apply NoDup_members.
  by rewrite (bool_decide_ext _ _ (elem_of_members t (type_of (name first)))).
Qed.

Lemma visitor_method_names_unique_witness :
  repeated_literal <> []
  /\ identifier "Expression" = true
  /\ exists first decls,
       head repeated_literal = Some first
       /\ emitted_visitor_methods "out" "Expression" repeated_literal
            empty_world = Some decls
       /\ NoDup (map method_name decls)
       /\ count_named "visitLiteralExpression" decls
          = if bool_decide (type_of (ExprTag LITERAL) = type_of (name first))
            then 1 else 0.
Proof.
  split; [discriminate |]. split; [reflexivity |].
  apply (visitor_method_names_unique "out" "Expression" repeated_literal
           empty_world (ExprTag LITERAL)); [discriminate | reflexivity].
Defined.

(** C3, as stated, fails on the list that holds the Literal variant
    twice: the name [visitLiteralExpression] is declared once, not at
    least twice. *)
Lemma repeated_tag_declared_once :
  repeated_literal <> []
  /\ map name repeated_literal = [ExprTag LITERAL; ExprTag LITERAL]
  /\ exists decls,
       emitted_visitor_methods "out" "Expression" repeated_literal empty_world
       = Some decls
       /\ count_named "visitLiteralExpression" decls = 1
       /\ ~ (2 <= count_named "visitLiteralExpression" decls).
Proof.
  split; [discriminate |]. split; [reflexivity |].
  eexists. split; [vm_compute; reflexivity |].
  split; [reflexivity |]. vm_compute. lia.
Qed.

(* ================================================================== *)
(** ** Class blocks                                                    *)
(* ================================================================== *)

(** The accept method the code emits is the one that dispatches to
    [visit<tag><family>]. *)
Lemma generate_visitor_method_spec v :
  AST_Class_methods.generate_visitor_method v
  = Spec.accept_method (Spec.visit_name (name v) (base_name v)).
Proof.
  unfold AST_Class_methods.generate_visitor_method, Spec.accept_method,
    Spec.visit_name.
  cbn zeta. rewrite !join_cons, join_nil, !append_assoc. reflexivity.
Qed.

(** The class block the code emits is the one the specification words. *)
Lemma AST_Class_str_spec v : AST_Class_str v = Spec.class_block v.
Proof.
  unfold AST_Class_str, Spec.class_block.
  rewrite !join_cons, join_nil, generate_visitor_method_spec.
  unfold AST_Class_methods.generate_class_decl,
    AST_Class_methods.generate_constructor_decl,
    AST_Class_methods.generate_fields,
    AST_Class_methods.generate_constructor_end,
    AST_Class_methods.generate_final_fields,
    AST_Class_methods.generate_class_end.
  cbn zeta. rewrite !append_assoc. reflexivity.
Qed.

(** The blocks are written in list order: the block of the variant at
    index [i] stands after the blocks of the variants before it and
    before those of the variants after it. *)
Lemma family_text_block base_name enum_type (ast : list AST_Class) i v :
  ast !! i = Some v ->
  holds_block (family_text base_name enum_type ast)
    (header_text base_name
       +:+ generate_visitor_interface base_name
             (map Tag_str (members enum_type))
       +:+ join "" (map Spec.class_block (take i ast)))
    (Spec.class_block v)
    (join "" (map Spec.class_block (drop (S i) ast))
       +:+ base_accept_method +:+ "}" +:+ LF).
Proof.
  intros Hv. unfold holds_block, family_text.
  rewrite <- (take_drop_middle ast i v Hv) at 1.
  rewrite (map_ext AST_Class_str Spec.class_block AST_Class_str_spec).
  rewrite map_app, map_cons, join_app, join_cons.
  rewrite !append_assoc. reflexivity.
Qed.

(** C5.  For every variant [v] of the input list, the emitted file holds
    at [v]'s place a class block whose constructor parameter list is
    the rendering [<kind> <name>] of [v]'s fields in declared order joined
    by a comma and a space, whose constructor body assigns each parameter
    to the instance field of the same name in the same order, and whose
    final field declarations render the same fields in the same order,
    each as [final <kind> <name>;]. *)
Theorem class_block_fields
    (output_dir base : string) (ast : list AST_Class) (w : World)
    (i : nat) (v : AST_Class) :
  ast !! i = Some v ->
  exists first text,
    head ast = Some first
    /\ emitted output_dir base ast w = Some text
    /\ holds_block text
         (header_text base
            +:+ generate_visitor_interface base
                  (map Tag_str (members (type_of (name first))))
            +:+ join "" (map Spec.class_block (take i ast)))
         ("  static class " +:+ Tag_str (name v) +:+ " extends "
            +:+ base_name v +:+ " {" +:+ LF
            +:+ "    " +:+ Tag_str (name v) +:+ "("
            +:+ join ", " (map (fun f => Parameter_Type_str (param_type f)
                                           +:+ " " +:+ param_name f)
                               (parameters v))
            +:+ ") {" +:+ LF
            +:+ join "" (map (fun f => "        this." +:+ param_name f
                                         +:+ " = " +:+ param_name f
                                         +:+ ";" +:+ LF)
                             (parameters v))
            +:+ "    }" +:+ LF +:+ LF
            +:+ Spec.accept_method (Spec.visit_name (name v) (base_name v))
            +:+ join "" (map (fun f => "    final "
                                         +:+ Parameter_Type_str (param_type f)
                                         +:+ " " +:+ param_name f
                                         +:+ ";" +:+ LF)
                             (parameters v))
            +:+ "  }" +:+ LF +:+ LF)
         (join "" (map Spec.class_block (drop (S i) ast))
            +:+ base_accept_method +:+ "}" +:+ LF).
Proof.
  intros Hv. destruct ast as [|first rest]; [done |].
  exists first, (family_text base (type_of (name first)) (first :: rest)).
  split; [done |]. split; [apply emitted_cons |].
  pose proof (family_text_block base (type_of (name first))
                (first :: rest) i v Hv) as Hblock.
  unfold holds_block in *. rewrite Hblock.
  unfold Spec.class_block at 2, Spec.constructor_parameter_list,
    Spec.constructor_body, Spec.final_field_declarations.
  rewrite (map_ext Spec.final_field
             (fun f => "    final " +:+ Parameter_Type_str (param_type f)
                         +:+ " " +:+ param_name f +:+ ";" +:+ LF)).
  - reflexivity.
  - intros f. unfold Spec.final_field, Spec.field.
    by rewrite !append_assoc.
Qed.

Lemma class_block_fields_witness :
  build_statements_default !! 2
  = Some (mkAST_Class "Statement" (StmtTag VAR)
            [mkParameter TOKEN "name"; mkParameter EXPRESSION "initializer"])
  /\ exists text,
       emitted "out" "Statement" build_statements_default empty_world
       = Some text
       /\ contains
            ("    Var(Token name, Expression initializer) {" +:+ LF
               +:+ "        this.name = name;" +:+ LF
               +:+ "        this.initializer = initializer;" +:+ LF
               +:+ "    }" +:+ LF)
            text = true
       /\ contains
            ("    final Token name;" +:+ LF
               +:+ "    final Expression initializer;" +:+ LF
               +:+ "  }" +:+ LF)
            text = true.
Proof.
  split; [reflexivity |].
  destruct (class_block_fields "out" "Statement" build_statements_default
              empty_world 2
              (mkAST_Class "Statement" (StmtTag VAR)
                 [mkParameter TOKEN "name";
                  mkParameter EXPRESSION "initializer"])
              eq_refl)
    as (first & text & Hhead & Hemitted & Hblock).
  exists text. split; [exact Hemitted |].
  injection Hhead as <-.
  unfold holds_block in Hblock. rewrite Hblock.
  split; vm_compute; reflexivity.
Defined.

(* ================================================================== *)
(** ** Accept methods and the visitor interface agree                  *)
(* ================================================================== *)

(** C4, as the code has it.  Take a family whose base name is an
    identifier and a variant [v] of the input list that belongs to it:
    its family is the base name and its tag is of the enumeration of the
    first variant's tag.
    Then the accept method in [v]'s emitted class block invokes the
    method named [visit] + [v]'s tag + the base name, and the emitted
    visitor interface declares a method of exactly that name whose one
    parameter has [v]'s tag as its type. *)
Theorem accept_target_declared
    (output_dir base : string) (ast : list AST_Class) (w : World)
    (i : nat) (v first : AST_Class) :
  ast !! i = Some v ->
  head ast = Some first ->
  identifier base = true ->
  base_name v = base ->
  type_of (name v) = type_of (name first) ->
  exists text before block_start block_end after decls,
    emitted output_dir base ast w = Some text
    /\ holds_block text before (AST_Class_str v) after
    /\ holds_block (AST_Class_str v) block_start
         ("    @Override" +:+ LF
            +:+ "    <R> R accept(Visitor<R> visitor) {" +:+ LF
            +:+ "        return visitor."
            +:+ ("visit" +:+ Tag_str (name v) +:+ base) +:+ "(this);" +:+ LF
            +:+ "    }" +:+ LF +:+ LF)
         block_end
    /\ visitor_methods text = Some decls
    /\ mkMethodDecl "R" ("visit" +:+ Tag_str (name v) +:+ base)
                    (Tag_str (name v)) (casefold base) ∈ decls.
Proof.
  intros Hv Hfirst Hbase Hfamily Htag.
  destruct ast as [|first' rest]; [done |].
  injection Hfirst as ->.
  pose proof (family_text_block base (type_of (name first))
                (first :: rest) i v Hv) as Hblock.
  rewrite <- AST_Class_str_spec in Hblock.
  eexists _, _,
    (AST_Class_methods.generate_class_decl v
       +:+ AST_Class_methods.generate_constructor_decl v
       +:+ AST_Class_methods.generate_fields v
       +:+ AST_Class_methods.generate_constructor_end v),
    (AST_Class_methods.generate_final_fields v
       +:+ AST_Class_methods.generate_class_end v),
    _, _.
  split; [apply emitted_cons |].
  split; [exact Hblock |].
  split.
  { unfold holds_block, AST_Class_str.
    rewrite !join_cons, join_nil, generate_visitor_method_spec, Hfamily.
    unfold Spec.accept_method, Spec.visit_name.
    rewrite !append_assoc. reflexivity. }
  split; [by apply visitor_methods_family_text |].
  change (visitor_method base (name v)
          ∈ map (visitor_method base) (members (type_of (name first)))).
  change (visitor_method base (name v)
          ∈ visitor_method base <$> members (type_of (name first))).
  apply list_elem_of_fmap_2, elem_of_members, Htag.
Qed.

Lemma accept_target_declared_witness :
  build_statements_default !! 1 = Some print_variant
  /\ identifier "Statement" = true
  /\ exists text decls,
       emitted "out" "Statement" build_statements_default empty_world
       = Some text
       /\ contains ("        return visitor.visitPrintStatement(this);" +:+ LF)
                   (AST_Class_str print_variant) = true
       /\ visitor_methods text = Some decls
       /\ mkMethodDecl "R" "visitPrintStatement" "Print" "statement" ∈ decls.
Proof.
  split; [reflexivity |]. split; [reflexivity |].
  destruct (accept_target_declared "out" "Statement" build_statements_default
              empty_world 1 print_variant
              (mkAST_Class "Statement" (StmtTag EXPR)
                 [mkParameter EXPRESSION "expression"])
              eq_refl eq_refl eq_refl eq_refl eq_refl)
    as (text & before & block_start & block_end & after & decls
        & Hemitted & _ & _ & Hdecls & Hin).
  exists text, decls.
  split; [exact Hemitted |]. split; [reflexivity |].
  split; [exact Hdecls | exact Hin].
Defined.

(** C4, as stated for every variant of the list, fails on a list that
    mixes the two enumerations: the Print-tagged variant is in the list
    and its accept method invokes [visitPrintExpression], which is
    [visit] + its tag + the base name, but the emitted interface declares
    no method of that name. *)
Lemma accept_target_undeclared_in_mixed_family :
  mixed_family !! 1
  = Some (mkAST_Class "Expression" (StmtTag PRINT)
            [mkParameter EXPRESSION "expression"])
  /\ "visit" +:+ Tag_str (StmtTag PRINT) +:+ "Expression"
     = "visitPrintExpression"
  /\ exists text decls,
       emitted "out" "Expression" mixed_family empty_world = Some text
       /\ contains ("    <R> R accept(Visitor<R> visitor) {" +:+ LF
                      +:+ "        return visitor.visitPrintExpression(this);"
                      +:+ LF)
                   text = true
       /\ visitor_methods text = Some decls
       /\ Forall (fun d => method_name d <> "visitPrintExpression") decls.
Proof.
  split; [reflexivity |]. split; [reflexivity |].
  eexists _, expression_visitor_methods.
  split; [vm_compute; reflexivity |].
  split; [vm_compute; reflexivity |].
  split; [vm_compute; reflexivity |].
  repeat constructor; discriminate.
Qed.

(** Outside that family the agreement is lost: in a list that mixes the
    two enumerations, the accept method of the Statement-tagged variant
    invokes a method that the interface does not declare. *)
Example accept_target_of_foreign_tag :
  contains ("        return visitor.visitPrintExpression(this);" +:+ LF)
           (AST_Class_str (mkAST_Class "Expression" (StmtTag PRINT)
                             [mkParameter EXPRESSION "expression"])) = true
  /\ emitted_visitor_methods "out" "Expression" mixed_family empty_world
     = Some expression_visitor_methods
  /\ count_named "visitPrintExpression" expression_visitor_methods = 0.
Proof. repeat split; vm_compute; reflexivity. Qed.

(* ================================================================== *)
(** ** Scenario A                                                      *)
(* ================================================================== *)

(** C2, as the code has it.  For the family "Expression" with the single
    variant Literal whose field list is [(OBJECT, "value")], the emitted
    text is [scenario_A_text]: its visitor interface declares six
    methods, one per member of the Expression enumeration, of which
    exactly one is [visitLiteralExpression(Literal expression)]; it holds
    a class Literal extending Expression with constructor
    [Literal(Object value)] whose body is [this.value = value;], an
    accept method that returns [visitor.visitLiteralExpression(this)],
    and the final field declaration [final Object value;]. *)
Theorem scenario_A_emitted (output_dir : string) (w : World) :
  emitted output_dir "Expression" scenario_A w = Some scenario_A_text
  /\ visitor_methods scenario_A_text = Some expression_visitor_methods
  /\ List.length expression_visitor_methods = 6
  /\ count_named "visitLiteralExpression" expression_visitor_methods = 1
  /\ mkMethodDecl "R" "visitLiteralExpression" "Literal" "expression"
     ∈ expression_visitor_methods
  /\ contains ("  static class Literal extends Expression {" +:+ LF
                 +:+ "    Literal(Object value) {" +:+ LF
                 +:+ "        this.value = value;" +:+ LF
                 +:+ "    }" +:+ LF)
              scenario_A_text = true
  /\ contains ("    <R> R accept(Visitor<R> visitor) {" +:+ LF
                 +:+ "        return visitor.visitLiteralExpression(this);"
                 +:+ LF +:+ "    }" +:+ LF)
              scenario_A_text = true
  /\ contains ("    final Object value;" +:+ LF +:+ "  }" +:+ LF)
              scenario_A_text = true.
Proof.
  split.
  { unfold scenario_A. rewrite emitted_cons. reflexivity. }
  split; [vm_compute; reflexivity |].
  split; [reflexivity |]. split; [vm_compute; reflexivity |].
  split; [compute_done |].
  repeat split; vm_compute; reflexivity.
Qed.

(** C2, as stated, fails in its first part: the interface emitted for
    scenario A does not have exactly one method. *)
Lemma scenario_A_interface_not_single :
  exists decls,
    emitted_visitor_methods "out" "Expression" scenario_A empty_world
    = Some decls
    /\ List.length decls <> 1.
Proof.
  exists expression_visitor_methods.
  split; [vm_compute; reflexivity | discriminate].
Qed.

(* ================================================================== *)
(** ** Determinism                                                     *)
(* ================================================================== *)

(** C6.  The text emitted for a family is a function of the base name
    and the variant list alone: structurally equal inputs give identical
    texts, whatever the output directory and the state of the world; the
    text is the closed form [family_text]; and a second run on the same
    input leaves the world exactly as the first run left it. *)
Theorem define_ast_deterministic (base : string) (ast : list AST_Class) :
  (forall base' ast' output_dir output_dir' w w',
     base' = base -> ast' = ast ->
     emitted output_dir' base' ast' w' = emitted output_dir base ast w)
  /\ (forall output_dir w,
        emitted output_dir base ast w
        = match head ast with
          | Some first => Some (family_text base (type_of (name first)) ast)
          | None => None
          end)
  /\ (forall output_dir w,
        define_ast output_dir base ast (define_ast output_dir base ast w).2
        = define_ast output_dir base ast w).
Proof.
  assert (Hclosed : forall output_dir w,
             emitted output_dir base ast w
             = match head ast with
               | Some first => Some (family_text base (type_of (name first)) ast)
               | None => None
               end).
  { intros output_dir w. destruct ast as [|first rest]; [done |].
    apply emitted_cons. }
  split; [| split].
  - intros base' ast' output_dir output_dir' w w' -> ->.
    by rewrite !Hclosed.
  - exact Hclosed.
  - intros output_dir w. destruct ast as [|first rest]; [done |].
    rewrite !define_ast_cons. simpl. by rewrite insert_insert_eq.
Qed.

Lemma define_ast_deterministic_witness :
  emitted "build" "Expression" scenario_A (mkWorld ∅ "earlier output")
  = emitted "out" "Expression" scenario_A empty_world.
Proof.
  exact (proj1 (define_ast_deterministic "Expression" scenario_A)
           "Expression" scenario_A "out" "build" empty_world
           (mkWorld ∅ "earlier output") eq_refl eq_refl).
Defined.

(* ================================================================== *)
(** ** The catalog                                                     *)
(* ================================================================== *)

(** C7.  The Expression builder returns exactly six variants, tagged
    Assign, Binary, Grouping, Literal, Unary, Variable in that order, each
    of family "Expression"; the Statement builder returns exactly three,
    tagged Expr, Print, Var in that order, each of family "Statement".
    The builders are functions of their argument only, so every call
    returns these same lists. *)
Theorem catalog_builders :
  build_expressions_default
  = [ mkAST_Class "Expression" (ExprTag ASSIGN)
        [mkParameter TOKEN "name"; mkParameter EXPRESSION "value"];
      mkAST_Class "Expression" (ExprTag BINARY)
        [mkParameter EXPRESSION "left"; mkParameter TOKEN "operator";
         mkParameter EXPRESSION "right"];
      mkAST_Class "Expression" (ExprTag GROUPING)
        [mkParameter EXPRESSION "expression"];
      mkAST_Class "Expression" (ExprTag LITERAL)
        [mkParameter OBJECT "value"];
      mkAST_Class "Expression" (ExprTag UNARY)
        [mkParameter TOKEN "operator"; mkParameter EXPRESSION "right"];
      mkAST_Class "Expression" (ExprTag VARIABLE)
        [mkParameter TOKEN "name"] ]
  /\ List.length build_expressions_default = 6
  /\ map (fun v => Tag_str (name v)) build_expressions_default
     = ["Assign"; "Binary"; "Grouping"; "Literal"; "Unary"; "Variable"]
  /\ Forall (fun v => base_name v = "Expression") build_expressions_default
  /\ build_statements_default
     = [ mkAST_Class "Statement" (StmtTag EXPR)
           [mkParameter EXPRESSION "expression"];
         mkAST_Class "Statement" (StmtTag PRINT)
           [mkParameter EXPRESSION "expression"];
         mkAST_Class "Statement" (StmtTag VAR)
           [mkParameter TOKEN "name"; mkParameter EXPRESSION "initializer"] ]
  /\ List.length build_statements_default = 3
  /\ map (fun v => Tag_str (name v)) build_statements_default
     = ["Expr"; "Print"; "Var"]
  /\ Forall (fun v => base_name v = "Statement") build_statements_default
  /\ (forall base, map name (build_expressions base)
                   = members Expression_Type_class
                   /\ Forall (fun v => base_name v = base)
                             (build_expressions base))
  /\ (forall base, map name (build_statements base)
                   = members Statement_Type_class
                   /\ Forall (fun v => base_name v = base)
                             (build_statements base)).
Proof.
  repeat split; try reflexivity; repeat constructor.
Qed.

(* ================================================================== *)
(** ** The command line                                                *)
(* ================================================================== *)

(** C8.  When [sys.argv] does not hold exactly the program name and one
    argument, [main] prints the usage line on the error stream and exits
    with status 64, and no file is created or changed.  When it holds
    exactly one argument, [main] returns, nothing is printed on the error
    stream, and the two family files are written in the given directory. *)
Theorem main_usage (argv : list string) (w : World) :
  (List.length argv <> 2 ->
   main argv w
   = (Raise (SystemExit 64),
      mkWorld (files w) (stderr w +:+ usage +:+ LF)))
  /\ (forall prog output_dir, argv = [prog; output_dir] ->
      main argv w
      = (Return tt,
         mkWorld
           (<[path_join output_dir "Statement.java"
              := family_text "Statement" Statement_Type_class
                   build_statements_default]>
              (<[path_join output_dir "Expression.java"
                 := family_text "Expression" Expression_Type_class
                      build_expressions_default]>
                 (files w)))
           (stderr w))).
Proof.
  split.
  - intros Hlen. destruct argv as [|a [|b [|c argv]]]; try reflexivity.
    by destruct Hlen.
  - intros prog output_dir ->. unfold main. simpl negb. cbv iota.
    erewrite bind_Return by reflexivity.
    erewrite bind_Return by reflexivity.
    erewrite bind_Return by apply define_ast_cons.
    erewrite bind_Return by reflexivity.
    etrans; [apply define_ast_cons | reflexivity].
Qed.

Lemma main_usage_witness :
  (List.length ["generate_ast.py"] <> 2
   /\ main ["generate_ast.py"] empty_world
      = (Raise (SystemExit 64),
         mkWorld ∅ ("Usage: generate_ast <output directory>" +:+ LF)))
  /\ (List.length ["generate_ast.py"; "out"; "extra"] <> 2
      /\ main ["generate_ast.py"; "out"; "extra"] empty_world
         = (Raise (SystemExit 64),
            mkWorld ∅ ("Usage: generate_ast <output directory>" +:+ LF)))
  /\ (main ["generate_ast.py"; "out"] empty_world).1 = Return tt.
Proof.
  split; [| split].
  - split; [discriminate |].
    apply (proj1 (main_usage ["generate_ast.py"] empty_world)).
    discriminate.
  - split; [discriminate |].
    apply (proj1 (main_usage ["generate_ast.py"; "out"; "extra"] empty_world)).
    discriminate.
  - rewrite (proj2 (main_usage ["generate_ast.py"; "out"] empty_world)
               "generate_ast.py" "out" eq_refl).
    reflexivity.
Defined.

(* ================================================================== *)
(** ** The empty variant list                                          *)
(* ================================================================== *)

(** C9.  On a non-empty variant list the access to the first element
    returns it and the run of the emitter returns; on the empty list the
    access raises [IndexError] and so does the run, before the file is
    opened: the world is left as it was, with no partial output. *)
Theorem first_variant_access
    (output_dir base : string) (ast : list AST_Class) (w : World) :
  (ast <> [] ->
   (exists first, getitem ast 0 w = (Return first, w))
   /\ (exists w', define_ast output_dir base ast w = (Return tt, w'))
   /\ is_Some (emitted output_dir base ast w))
  /\ getitem (@nil AST_Class) 0 w = (Raise IndexError, w)
  /\ define_ast output_dir base [] w = (Raise IndexError, w)
  /\ emitted output_dir base [] w = None.
Proof.
  split; [| by repeat split].
  intros Hne. destruct ast as [|first rest]; [done |].
  split; [by exists first |].
  split; [rewrite define_ast_cons; by eexists |].
  rewrite emitted_cons. by eexists.
Qed.

Lemma first_variant_access_witness :
  scenario_A <> []
  /\ (exists first, getitem scenario_A 0 empty_world = (Return first, empty_world))
  /\ (exists w', define_ast "out" "Expression" scenario_A empty_world
                 = (Return tt, w'))
  /\ is_Some (emitted "out" "Expression" scenario_A empty_world).
Proof.
  split; [discriminate |].
  apply (proj1 (first_variant_access "out" "Expression" scenario_A empty_world)).
  discriminate.
Defined.

(* ================================================================== *)
(** ** The emitted file, line by line                                  *)
(* ================================================================== *)

Lemma unlines_cons l (ls : list string) :
  unlines (l :: ls) = l +:+ LF +:+ unlines ls.
Proof. unfold unlines. by rewrite map_cons, join_cons, append_assoc. Qed.

Lemma unlines_app (l1 l2 : list string) :
  unlines (l1 ++ l2)%list = unlines l1 +:+ unlines l2.
Proof. unfold unlines. by rewrite map_app, join_app. Qed.

Lemma unlines_map {A} (f : A -> string) (l : list A) :
  join "" (map (fun x => f x +:+ LF) l) = unlines (map f l).
Proof. unfold unlines. by rewrite map_map. Qed.

Lemma unlines_concat (ls : list (list string)) :
  join "" (map unlines ls) = unlines (List.concat ls).
Proof.
  induction ls as [|l ls IH]; [done |].
  by rewrite map_cons, join_cons, IH, concat_cons, unlines_app.
Qed.

(** Lines without a line feed are what [split_lines] gives back, with
    the empty text after the last line feed. *)
Lemma split_lines_unlines (ls : list string) :
  Forall (fun l => lacks newline l = true) ls ->
  split_lines (unlines ls) = (ls ++ [""])%list.
Proof.
  intros Hls. rewrite <- (append_nil_r (unlines ls)).
  unfold unlines. by rewrite split_lines_join.
Qed.

Lemma lacks_join c sep (ls : list string) :
  lacks c sep = true ->
  Forall (fun l => lacks c l = true) ls ->
  lacks c (join sep ls) = true.
Proof.
  intros Hsep. induction 1 as [|l ls Hl Hls IH]; [done |].
  destruct ls as [|l' ls]; [done |].
  change (join sep (l :: l' :: ls)) with (l +:+ sep +:+ join sep (l' :: ls)).
  by rewrite !lacks_append, Hl, Hsep, IH.
Qed.

Lemma generate_visitor_interface_unlines base (names : list string) :
  generate_visitor_interface base names
  = unlines ("  interface Visitor<R> {"
             :: map (method_decl_line base) names ++ ["  }"; ""])%list.
Proof.
  unfold generate_visitor_interface. cbn zeta.
  rewrite (map_ext _ (fun n => method_decl_line base n +:+ LF)); cycle 1.
  { intros n. unfold method_decl_line. by rewrite !append_assoc. }
  rewrite unlines_map, unlines_cons, unlines_app, !unlines_cons.
  rewrite !append_assoc. reflexivity.
Qed.

Lemma AST_Class_str_unlines v : AST_Class_str v = unlines (block_lines v).
Proof.
  unfold AST_Class_str, block_lines,
    AST_Class_methods.generate_class_decl,
    AST_Class_methods.generate_constructor_decl,
    AST_Class_methods.generate_fields,
    AST_Class_methods.generate_constructor_end,
    AST_Class_methods.generate_visitor_method,
    AST_Class_methods.generate_final_fields,
    AST_Class_methods.generate_class_end.
  cbn zeta.
  rewrite (map_ext (fun p => "        this." +:+ param_name p +:+ " = "
                               +:+ param_name p +:+ ";" +:+ LF)
             (fun p => ("        this." +:+ param_name p +:+ " = "
                          +:+ param_name p +:+ ";") +:+ LF))
    by (intros p; by rewrite !append_assoc).
  rewrite (map_ext (fun p => "    final " +:+ Parameter_str p +:+ ";" +:+ LF)
             (fun p => ("    final " +:+ Parameter_str p +:+ ";") +:+ LF))
    by (intros p; by rewrite !append_assoc).
  rewrite !unlines_map.
  rewrite !unlines_app, !unlines_cons, !join_cons, join_nil.
  rewrite !append_assoc. reflexivity.
Qed.

Lemma family_text_unlines base enum_type (ast : list AST_Class) :
  family_text base enum_type ast = unlines (family_lines base enum_type ast).
Proof.
  unfold family_text, family_lines, header_text, base_accept_method.
  rewrite generate_visitor_interface_unlines.
  rewrite (map_ext AST_Class_str (fun v => unlines (block_lines v))
             AST_Class_str_unlines).
  rewrite <- (map_map block_lines unlines), unlines_concat, map_map.
  cbn zeta.
  rewrite !unlines_app, !unlines_cons, !unlines_app, !unlines_cons.
  rewrite !join_cons, join_nil, !append_assoc. reflexivity.
Qed.

Lemma forallb_Forall {A} (f : A -> bool) (l : list A) :
  forallb f l = true -> Forall (fun x => f x = true) l.
Proof.
  induction l as [|x l IH]; simpl; [constructor |].
  rewrite andb_true_iff. intros [Hx Hl]. constructor; auto.
Qed.

Lemma wf_variant_base_name v :
  wf_variant v = true -> identifier (base_name v) = true.
Proof. unfold wf_variant. rewrite andb_true_iff. tauto. Qed.

Lemma wf_variant_param_names v :
  wf_variant v = true ->
  Forall (fun p => identifier (param_name p) = true) (parameters v).
Proof.
  unfold wf_variant. rewrite andb_true_iff. intros [_ H].
  by apply forallb_Forall in H.
Qed.

Lemma lacks_newline_identifier s :
  identifier s = true -> lacks newline s = true.
Proof. apply identifier_lacks. by left. Qed.

Lemma lacks_newline_casefold s :
  identifier s = true -> lacks newline (casefold s) = true.
Proof. apply casefold_identifier_lacks. by left. Qed.

Lemma lacks_newline_Tag_str t : lacks newline (Tag_str t) = true.
Proof. by destruct t as [[]|[]]. Qed.

Lemma lacks_newline_Parameter_str p :
  identifier (param_name p) = true -> lacks newline (Parameter_str p) = true.
Proof.
  intros Hp. unfold Parameter_str.
  rewrite !lacks_append, (lacks_newline_identifier _ Hp).
  by destruct (param_type p).
Qed.

(** Every line of the class block of a well-formed variant is free of
    line feeds. *)
Lemma block_lines_lack_newline v :
  wf_variant v = true ->
  Forall (fun l => lacks newline l = true) (block_lines v).
Proof.
  intros Hwf.
  pose proof (lacks_newline_identifier _ (wf_variant_base_name v Hwf)) as Hb.
  pose proof (wf_variant_param_names v Hwf) as Hps.
  pose proof (lacks_newline_Tag_str (name v)) as Ht.
  unfold block_lines.
  repeat first [ apply Forall_cons; split | apply Forall_app; split
               | apply Forall_nil ]; try reflexivity.
  - by rewrite !lacks_append, Ht, Hb.
  - rewrite !lacks_append, Ht.
    rewrite lacks_join.
    + reflexivity.
    + reflexivity.
    + apply Forall_map. eapply Forall_impl; [exact Hps |].
      intros p. apply lacks_newline_Parameter_str.
  - apply Forall_map. eapply Forall_impl; [exact Hps |].
    intros p Hp. cbv beta.
    by rewrite !lacks_append, (lacks_newline_identifier _ Hp).
  - by rewrite !lacks_append, Ht, Hb.
  - apply Forall_map. eapply Forall_impl; [exact Hps |].
    intros p Hp. cbv beta.
    by rewrite !lacks_append, (lacks_newline_Parameter_str _ Hp).
Qed.

Lemma family_lines_lack_newline base enum_type (ast : list AST_Class) :
  identifier base = true ->
  Forall (fun v => wf_variant v = true) ast ->
  Forall (fun l => lacks newline l = true) (family_lines base enum_type ast).
Proof.
  intros Hbase Hast.
  pose proof (lacks_newline_identifier _ Hbase) as Hb.
  unfold family_lines.
  repeat first [ apply Forall_cons; split | apply Forall_app; split
               | apply Forall_nil ]; try reflexivity.
  - by rewrite !lacks_append, Hb.
  - apply Forall_map, Forall_forall. intros t _.
    by apply method_decl_line_lacks_newline.
  - apply Forall_concat, Forall_map.
    eapply Forall_impl; [exact Hast |].
    intros v. apply block_lines_lack_newline.
Qed.

(** The lines of the file emitted for a well-formed family. *)
Lemma split_lines_family_text base enum_type (ast : list AST_Class) :
  identifier base = true ->
  Forall (fun v => wf_variant v = true) ast ->
  split_lines (family_text base enum_type ast)
  = (family_lines base enum_type ast ++ [""])%list.
Proof.
  intros Hbase Hast. rewrite family_text_unlines.
  by apply split_lines_unlines, family_lines_lack_newline.
Qed.

(* ================================================================== *)
(** ** Classes and dispatch targets read back from the file            *)
(* ================================================================== *)

Lemma omap_cons_eq {A B} (f : A -> option B) x (l : list A) :
  omap f (x :: l) = (from_option (fun y => [y]) [] (f x) ++ omap f l)%list.
Proof. simpl. by destruct (f x). Qed.

Lemma omap_all_None {A B} (f : A -> option B) (l : list A) :
  Forall (fun x => f x = None) l -> omap f l = [].
Proof.
  induction 1 as [|x l Hx _ IH]; [done |].
  by rewrite omap_cons_eq, Hx, IH.
Qed.

Lemma omap_map_None {A B C} (f : B -> option C) (g : A -> B) (l : list A) :
  (forall x, f (g x) = None) -> omap f (map g l) = [].
Proof.
  intros H. apply omap_all_None, Forall_map, Forall_forall. auto.
Qed.

Lemma class_name_of_class_decl t base :
  class_name_of_line
    ("  static class " +:+ Tag_str t +:+ " extends " +:+ base +:+ " {")
  = Some (Tag_str t).
Proof.
  unfold class_name_of_line. simpl.
  rewrite split_at_app; [done |].
  apply identifier_chars_lack; [set_solver | apply Tag_str_chars].
Qed.

Lemma accept_target_of_return t base :
  identifier base = true ->
  accept_target_of_line
    ("        return visitor.visit" +:+ Tag_str t +:+ base +:+ "(this);")
  = Some ("visit" +:+ Tag_str t +:+ base).
Proof.
  intros Hbase. unfold accept_target_of_line. simpl.
  rewrite <- (append_assoc (Tag_str t) base).
  rewrite split_at_app; [done |].
  rewrite lacks_append, (identifier_lacks "(" base) by (done || set_solver).
  rewrite (identifier_chars_lack "(" (Tag_str t))
    by (apply Tag_str_chars || set_solver).
  reflexivity.
Qed.

(** A class block declares one class, named by the variant's tag. *)
Lemma class_names_block_lines v :
  omap class_name_of_line (block_lines v) = [Tag_str (name v)].
Proof.
  unfold block_lines. rewrite !omap_app.
  rewrite !omap_map_None by reflexivity.
  rewrite !omap_cons_eq, class_name_of_class_decl.
  reflexivity.
Qed.

(** A class block dispatches once, to the visitor method of the
    variant's tag and family. *)
Lemma accept_targets_block_lines v :
  identifier (base_name v) = true ->
  omap accept_target_of_line (block_lines v)
  = ["visit" +:+ Tag_str (name v) +:+ base_name v].
Proof.
  intros Hbase. unfold block_lines. rewrite !omap_app.
  rewrite !omap_map_None by reflexivity.
  rewrite !omap_cons_eq, (accept_target_of_return _ _ Hbase).
  by destruct (name v) as [[]|[]].
Qed.

(** Replace the reading of explicitly listed lines that hold nothing
    of interest by the empty list. *)
Ltac drop_plain_lines :=
  repeat match goal with
         | |- context [omap ?f (?x :: ?l)] =>
             change (omap f (x :: l)) with (@nil string)
         end;
  cbn [app]; rewrite ?app_nil_r.

Lemma omap_concat_blocks {B} (f : string -> option B) (g : AST_Class -> B)
    (ast : list AST_Class) :
  Forall (fun v => omap f (block_lines v) = [g v]) ast ->
  omap f (List.concat (map block_lines ast)) = map g ast.
Proof.
  induction 1 as [|v ast Hv _ IH]; [done |].
  by rewrite map_cons, concat_cons, omap_app, Hv, IH.
Qed.

(** Outside the class blocks no line of the file declares a class or
    dispatches to the visitor. *)
Lemma class_names_family_lines base enum_type (ast : list AST_Class) :
  omap class_name_of_line (family_lines base enum_type ast ++ [""])%list
  = map (fun v => Tag_str (name v)) ast.
Proof.
  unfold family_lines. rewrite !omap_app.
  rewrite omap_map_None by reflexivity.
  rewrite (omap_concat_blocks _ (fun v => Tag_str (name v)))
    by (apply Forall_forall; intros v _; apply class_names_block_lines).
  drop_plain_lines. reflexivity.
Qed.

Lemma accept_targets_family_lines base enum_type (ast : list AST_Class) :
  Forall (fun v => wf_variant v = true) ast ->
  omap accept_target_of_line (family_lines base enum_type ast ++ [""])%list
  = map (fun v => "visit" +:+ Tag_str (name v) +:+ base_name v) ast.
Proof.
  intros Hast. unfold family_lines. rewrite !omap_app.
  rewrite omap_map_None by reflexivity.
  rewrite (omap_concat_blocks _
             (fun v => "visit" +:+ Tag_str (name v) +:+ base_name v)); cycle 1.
  { eapply Forall_impl; [exact Hast |]. intros v Hv.
    by apply accept_targets_block_lines, wf_variant_base_name. }
  drop_plain_lines. reflexivity.
Qed.

(** X1.  The class block of a variant whose family name and field names
    are identifiers is made of these lines: the class declaration, the
    constructor header, one assignment line per field in declared order,
    the end of the constructor, the accept method, one final declaration
    per field in declared order, and the end of the class: [2 * n + 11]
    lines for [n] fields, followed by one empty line and the empty text
    after the last line feed. *)
Theorem class_block_lines (v : AST_Class) :
  wf_variant v = true ->
  split_lines (AST_Class_str v)
  = ([ "  static class " +:+ Tag_str (name v) +:+ " extends " +:+ base_name v
         +:+ " {";
       "    " +:+ Tag_str (name v) +:+ "("
         +:+ join ", " (map Parameter_str (parameters v)) +:+ ") {" ]
     ++ map (fun p => "        this." +:+ param_name p +:+ " = "
                        +:+ param_name p +:+ ";")
            (parameters v)
     ++ [ "    }";
          "";
          "    @Override";
          "    <R> R accept(Visitor<R> visitor) {";
          "        return visitor.visit" +:+ Tag_str (name v) +:+ base_name v
            +:+ "(this);";
          "    }";
          "" ]
     ++ map (fun p => "    final " +:+ Parameter_str p +:+ ";") (parameters v)
     ++ [ "  }"; ""; "" ])%list
  /\ List.length (split_lines (AST_Class_str v))
     = 2 * List.length (parameters v) + 12.
Proof.
  intros Hwf.
  assert (Hlines : split_lines (AST_Class_str v)
                   = (block_lines v ++ [""])%list).
  { rewrite AST_Class_str_unlines.
    by apply split_lines_unlines, block_lines_lack_newline. }
  split.
  - rewrite Hlines. unfold block_lines.
    rewrite <- !app_assoc. reflexivity.
  - rewrite Hlines. unfold block_lines.
    rewrite !length_app, !length_map. simpl. lia.
Qed.

Lemma class_block_lines_witness :
  wf_variant literal_variant = true
  /\ List.length (split_lines (AST_Class_str literal_variant)) = 14.
Proof.
  split; [reflexivity |].
  exact (proj2 (class_block_lines literal_variant eq_refl)).
Defined.

(** X2.  The file emitted for a well-formed family declares one class
    per variant, named by the variant's tag, in list order; a variant
    that occurs twice in the list is declared twice. *)
Theorem emitted_class_names
    (output_dir base : string) (ast : list AST_Class) (w : World) :
  ast <> [] ->
  identifier base = true ->
  Forall (fun v => wf_variant v = true) ast ->
  exists text,
    emitted output_dir base ast w = Some text
    /\ class_names text = map (fun v => Tag_str (name v)) ast
    /\ List.length (class_names text) = List.length ast.
Proof.
  intros Hne Hbase Hast. destruct ast as [|first rest]; [done |].
  eexists. split; [apply emitted_cons |].
  assert (Hnames : class_names (family_text base (type_of (name first))
                                  (first :: rest))
                   = map (fun v => Tag_str (name v)) (first :: rest)).
  { unfold class_names. rewrite split_lines_family_text by done.
    apply class_names_family_lines. }
  split; [exact Hnames |]. by rewrite Hnames, length_map.
Qed.

Lemma emitted_class_names_witness :
  repeated_statements <> []
  /\ identifier "Statement" = true
  /\ Forall (fun v => wf_variant v = true) repeated_statements
  /\ exists text,
       emitted "out" "Statement" repeated_statements empty_world = Some text
       /\ class_names text = ["Expr"; "Print"; "Var"; "Expr"; "Print"; "Var"]
       /\ List.length (class_names text) = 6.
Proof.
  assert (Hwf : Forall (fun v => wf_variant v = true) repeated_statements)
    by (repeat constructor).
  split; [discriminate |]. split; [reflexivity |]. split; [exact Hwf |].
  exact (emitted_class_names "out" "Statement" repeated_statements empty_world
           ltac:(discriminate) eq_refl Hwf).
Defined.

(** X3.  In the file emitted for a well-formed family, the accept
    methods dispatch, in list order, to [visit] + the variant's tag + the
    variant's own family name: the family name stored in the variant is
    used, not the base name given to [define_ast]. *)
Theorem emitted_accept_targets
    (output_dir base : string) (ast : list AST_Class) (w : World) :
  ast <> [] ->
  identifier base = true ->
  Forall (fun v => wf_variant v = true) ast ->
  exists text,
    emitted output_dir base ast w = Some text
    /\ accept_targets text
       = map (fun v => "visit" +:+ Tag_str (name v) +:+ base_name v) ast.
Proof.
  intros Hne Hbase Hast. destruct ast as [|first rest]; [done |].
  eexists. split; [apply emitted_cons |].
  unfold accept_targets. rewrite split_lines_family_text by done.
  by apply accept_targets_family_lines.
Qed.

Lemma emitted_accept_targets_witness :
  build_statements "Stmt" <> []
  /\ identifier "Statement" = true
  /\ Forall (fun v => wf_variant v = true) (build_statements "Stmt")
  /\ exists text,
       emitted "out" "Statement" (build_statements "Stmt") empty_world
       = Some text
       /\ accept_targets text
          = ["visitExprStmt"; "visitPrintStmt"; "visitVarStmt"].
Proof.
  assert (Hwf : Forall (fun v => wf_variant v = true) (build_statements "Stmt"))
    by (repeat constructor).
  split; [discriminate |]. split; [reflexivity |]. split; [exact Hwf |].
  exact (emitted_accept_targets "out" "Statement" (build_statements "Stmt")
           empty_world ltac:(discriminate) eq_refl Hwf).
Defined.

(** X4.  When the variants of a well-formed family all carry the base
    name as their family and their tags are the members of one
    enumeration in declaration order (as both catalog lists are), the
    emitted file is consistent: the i-th class dispatches to the i-th
    method declared by the visitor interface, and that method takes the
    i-th class as its parameter type. *)
Theorem emitted_family_consistent
    (output_dir base : string) (ast : list AST_Class) (w : World)
    (enum_type : EnumClass) :
  identifier base = true ->
  Forall (fun v => wf_variant v = true) ast ->
  Forall (fun v => base_name v = base) ast ->
  map name ast = members enum_type ->
  exists text decls,
    emitted output_dir base ast w = Some text
    /\ visitor_methods text = Some decls
    /\ accept_targets text = map method_name decls
    /\ class_names text = map parameter_type decls.
Proof.
  intros Hbase Hwf Hfamily Htags.
  destruct ast as [|first rest]; [by destruct enum_type |].
  assert (Henum : type_of (name first) = enum_type).
  { apply elem_of_members. rewrite <- Htags. by left. }
  exists (family_text base (type_of (name first)) (first :: rest)),
         (map (visitor_method base) (members (type_of (name first)))).
  split; [apply emitted_cons |].
  split; [by apply visitor_methods_family_text |].
  rewrite Henum, <- Htags, !map_map. split.
  - unfold accept_targets. rewrite split_lines_family_text by done.
    rewrite accept_targets_family_lines by done.
    apply map_ext_Forall. eapply Forall_impl; [exact Hfamily |].
    intros v Hv. simpl. by rewrite Hv.
  - unfold class_names. rewrite split_lines_family_text by done.
    by rewrite class_names_family_lines.
Qed.

Lemma emitted_family_consistent_witness :
  identifier "Expression" = true
  /\ Forall (fun v => wf_variant v = true) build_expressions_default
  /\ Forall (fun v => base_name v = "Expression") build_expressions_default
  /\ map name build_expressions_default = members Expression_Type_class
  /\ exists text decls,
       emitted "out" "Expression" build_expressions_default empty_world
       = Some text
       /\ visitor_methods text = Some decls
       /\ accept_targets text = map method_name decls
       /\ class_names text = map parameter_type decls.
Proof.
  assert (Hwf : Forall (fun v => wf_variant v = true) build_expressions_default)
    by (repeat constructor).
  assert (Hfam : Forall (fun v => base_name v = "Expression")
                        build_expressions_default)
    by (repeat constructor).
  split; [reflexivity |]. split; [exact Hwf |]. split; [exact Hfam |].
  split; [reflexivity |].
  exact (emitted_family_consistent "out" "Expression"
           build_expressions_default empty_world Expression_Type_class
           eq_refl Hwf Hfam eq_refl).
Defined.

(* ================================================================== *)
(** ** [generate_visitor_interface] on any list of names               *)
(* ================================================================== *)

Section any_names.
Variable base : string.
Hypothesis base_chars : all_chars identifier_char base = true.

Lemma method_decl_line_any_lacks_newline n :
  all_chars identifier_char n = true ->
  lacks newline (method_decl_line base n) = true.
Proof.
  intros Hn. unfold method_decl_line. rewrite !lacks_append.
  rewrite (identifier_chars_lack newline base) by (done || set_solver).
  rewrite (identifier_chars_lack newline (casefold base))
    by (by apply all_chars_casefold || set_solver).
  rewrite (identifier_chars_lack newline n) by (done || set_solver).
  reflexivity.
Qed.

Lemma parse_method_decl_line_any n :
  all_chars identifier_char n = true ->
  parse_method_decl (method_decl_line base n)
  = Some (mkMethodDecl "R" ("visit" +:+ n +:+ base) n (casefold base)).
Proof.
  intros Hn. unfold parse_method_decl, method_decl_line. simpl.
  rewrite <- (append_assoc n base).
  rewrite split_at_app; cycle 1.
  { rewrite lacks_append.
    rewrite (identifier_chars_lack "(" base) by (done || set_solver).
    by rewrite (identifier_chars_lack "(" n) by (done || set_solver). }
  simpl.
  rewrite split_at_app by (apply identifier_chars_lack; [set_solver | done]).
  simpl.
  change (casefold base +:+ ");") with (casefold base +:+ String ")" ";").
  rewrite split_at_app
    by (apply identifier_chars_lack; [set_solver | by apply all_chars_casefold]).
  reflexivity.
Qed.

Lemma visit_name_inj n1 n2 :
  "visit" +:+ n1 +:+ base = "visit" +:+ n2 +:+ base -> n1 = n2.
Proof.
  simpl. intros H. injection H as H. by apply append_inj_r in H.
Qed.

End any_names.

(** X5.  For a base name and type names made of identifier characters,
    the interface text that [generate_visitor_interface] returns declares
    exactly one method per entry of the list, in list order, the entry
    being both part of the method name and the parameter type.  Entries
    are never merged: a name that occurs [k] times in the list is
    declared [k] times, and the empty list gives an interface without
    methods. *)
Theorem generate_visitor_interface_declarations
    (base : string) (names : list string) :
  all_chars identifier_char base = true ->
  Forall (fun n => all_chars identifier_char n = true) names ->
  exists decls,
    visitor_methods (generate_visitor_interface base names) = Some decls
    /\ decls = map (fun n => mkMethodDecl "R" ("visit" +:+ n +:+ base) n
                               (casefold base))
                   names
    /\ forall n, count_named ("visit" +:+ n +:+ base) decls
                 = occurrences n names.
Proof.
  intros Hbase Hnames. eexists. split; [| split; [reflexivity |]].
  - unfold visitor_methods, visitor_interface_lines.
    rewrite generate_visitor_interface_unlines.
    rewrite split_lines_unlines; cycle 1.
    { apply Forall_cons; split; [reflexivity |].
      apply Forall_app; split; [| by repeat constructor].
      apply Forall_map. eapply Forall_impl; [exact Hnames |].
      intros n. by apply method_decl_line_any_lacks_newline. }
    cbn [after_line app]. rewrite String.eqb_refl.
    rewrite <- app_assoc. cbn [app]. rewrite before_line_app; cycle 1.
    { apply Forall_map, Forall_forall. by intros n _. }
    apply mapM_map_Some. intros n Hn.
    apply parse_method_decl_line_any; [done |].
    by eapply (proj1 (Forall_forall _ _) Hnames).
  - intros n. unfold count_named, occurrences. clear Hnames.
    induction names as [|x names IH]; [done |].
    rewrite map_cons, !filter_cons. cbn [method_name].
    destruct (decide (x = n)) as [->|Hne].
    + rewrite decide_True by done. by rewrite !length_cons, IH.
    + rewrite decide_False; [done |].
      intros H. by apply visit_name_inj in H.
Qed.

Lemma generate_visitor_interface_declarations_witness :
  all_chars identifier_char "Node" = true
  /\ Forall (fun n => all_chars identifier_char n = true) ["Leaf"; "Leaf"]
  /\ exists decls,
       visitor_methods (generate_visitor_interface "Node" ["Leaf"; "Leaf"])
       = Some decls
       /\ decls = [mkMethodDecl "R" "visitLeafNode" "Leaf" "node";
                   mkMethodDecl "R" "visitLeafNode" "Leaf" "node"]
       /\ forall n, count_named ("visit" +:+ n +:+ "Node") decls
                    = occurrences n ["Leaf"; "Leaf"].
Proof.
  assert (Hnames : Forall (fun n => all_chars identifier_char n = true)
                          ["Leaf"; "Leaf"])
    by (repeat constructor).
  split; [reflexivity |]. split; [exact Hnames |].
  exact (generate_visitor_interface_declarations "Node" ["Leaf"; "Leaf"]
           eq_refl Hnames).
Defined.

(* ================================================================== *)
(** ** Which files a run touches                                       *)
(* ================================================================== *)

Lemma startswith_sep_java b :
  startswith_sep (b +:+ ".java") = startswith_sep b.
Proof. by destruct b. Qed.

Lemma path_join_absolute a b : startswith_sep b = true -> path_join a b = b.
Proof. intros H. unfold path_join. by rewrite H. Qed.



(** X6.  A run of [define_ast] leaves every file other than the family
    file as it was, and prints nothing on the error stream, whether it
    returns or raises. *)
Theorem define_ast_frame
    (output_dir base : string) (ast : list AST_Class) (w : World)
    (p : string) :
  p <> path_join output_dir (base +:+ ".java") ->
  files (define_ast output_dir base ast w).2 !! p = files w !! p
  /\ stderr (define_ast output_dir base ast w).2 = stderr w.
Proof.
  intros Hp. destruct ast as [|first rest]; [done |].
  rewrite define_ast_cons. simpl. split; [| done].
  by rewrite lookup_insert_ne.
Qed.

Lemma define_ast_frame_witness :
  "out/Statement.java" <> path_join "out" ("Expression" +:+ ".java")
  /\ files (define_ast "out" "Expression" scenario_A
              (mkWorld {["out/Statement.java" := "kept"]} "")).2
     !! "out/Statement.java"
     = (mkWorld {["out/Statement.java" := "kept"]} "").(files)
       !! "out/Statement.java"
  /\ stderr (define_ast "out" "Expression" scenario_A
               (mkWorld {["out/Statement.java" := "kept"]} "")).2
     = "".
Proof.
  split; [discriminate |].
  exact (define_ast_frame "out" "Expression" scenario_A
           (mkWorld {["out/Statement.java" := "kept"]} "")
           "out/Statement.java" ltac:(discriminate)).
Defined.

(** X7.  The family file is overwritten, never appended to: after two
    runs for the same family on non-empty lists the world is what the
    second run alone produces. *)
Theorem define_ast_last_run_wins
    (output_dir base : string) (ast1 ast2 : list AST_Class) (w : World) :
  ast1 <> [] -> ast2 <> [] ->
  (define_ast output_dir base ast1;; define_ast output_dir base ast2) w
  = define_ast output_dir base ast2 w.
Proof.
  intros H1 H2.
  destruct ast1 as [|v1 rest1]; [done |].
  destruct ast2 as [|v2 rest2]; [done |].
  erewrite bind_Return by apply define_ast_cons.
  rewrite !define_ast_cons. simpl. by rewrite insert_insert_eq.
Qed.

Lemma define_ast_last_run_wins_witness :
  repeated_literal <> [] /\ scenario_A <> []
  /\ (define_ast "out" "Expression" repeated_literal;;
      define_ast "out" "Expression" scenario_A) empty_world
     = define_ast "out" "Expression" scenario_A empty_world.
Proof.
  split; [discriminate |]. split; [discriminate |].
  exact (define_ast_last_run_wins "out" "Expression" repeated_literal
           scenario_A empty_world ltac:(discriminate) ltac:(discriminate)).
Defined.




(** X9.  A base name that starts with the path separator makes
    [os.path.join] drop the output directory: the run writes the file
    [<base>.java] at that absolute place whatever directory was given. *)
Theorem define_ast_absolute_base_name
    (output_dir output_dir' base : string) (ast : list AST_Class) (w : World) :
  startswith_sep base = true ->
  define_ast output_dir base ast w = define_ast output_dir' base ast w
  /\ (ast <> [] ->
      files (define_ast output_dir base ast w).2 !! (base +:+ ".java")
      = emitted output_dir base ast w).
Proof.
  intros Hbase.
  assert (Hpath : forall d, path_join d (base +:+ ".java") = base +:+ ".java").
  { intros d. apply path_join_absolute. by rewrite startswith_sep_java. }
  split.
  - unfold define_ast. by rewrite !Hpath.
  - intros Hne. unfold emitted. rewrite Hpath.
    destruct ast as [|first rest]; [done |].
    by rewrite define_ast_cons.
Qed.

Lemma define_ast_absolute_base_name_witness :
  startswith_sep "/etc/Expression" = true
  /\ define_ast "out" "/etc/Expression" scenario_A empty_world
     = define_ast "elsewhere" "/etc/Expression" scenario_A empty_world
  /\ files (define_ast "out" "/etc/Expression" scenario_A empty_world).2
     !! "/etc/Expression.java"
     = emitted "out" "/etc/Expression" scenario_A empty_world.
Proof.
  split; [reflexivity |].
  destruct (define_ast_absolute_base_name "out" "elsewhere" "/etc/Expression"
              scenario_A empty_world eq_refl) as [Hsame Hfile].
  split; [exact Hsame |].
  exact (Hfile ltac:(discriminate)).
Defined.




(* ================================================================== *)
(** ** Rendering of a field                                            *)
(* ================================================================== *)

(** X11.  [Parameter.__str__] loses nothing: two fields that render to
    the same text have the same kind and the same name, whatever
    characters the names hold. *)
Theorem Parameter_str_inj (p1 p2 : Param) :
  Parameter_str p1 = Parameter_str p2 -> p1 = p2.
Proof.
  destruct p1 as [k1 n1], p2 as [k2 n2]. unfold Parameter_str.
  destruct k1, k2; simpl; intros H; try discriminate H;
    injection H as ->; reflexivity.
Qed.

Lemma Parameter_str_inj_witness :
  Parameter_str (mkParameter TOKEN "name")
  = Parameter_str (mkParameter TOKEN "name")
  /\ mkParameter TOKEN "name" = mkParameter TOKEN "name".
Proof.
  split; [reflexivity |].
  exact (Parameter_str_inj (mkParameter TOKEN "name")
           (mkParameter TOKEN "name") eq_refl).
Defined.

(* ================================================================== *)
(** ** Tags of the other enumeration                                   *)
(* ================================================================== *)

(** X12.  [define_ast] does not check that the tags of a list belong to
    one enumeration.  In a well-formed family, a variant that carries
    the base name but whose tag is not of the enumeration of the first
    variant's tag still gets its class, and the accept method of that
    class dispatches to a visitor method that the emitted interface does
    not declare. *)
Theorem foreign_tag_dispatch_undeclared
    (output_dir base : string) (ast : list AST_Class) (w : World)
    (v first : AST_Class) :
  identifier base = true ->
  Forall (fun u => wf_variant u = true) ast ->
  head ast = Some first ->
  v ∈ ast ->
  base_name v = base ->
  type_of (name v) <> type_of (name first) ->
  exists text decls,
    emitted output_dir base ast w = Some text
    /\ visitor_methods text = Some decls
    /\ Tag_str (name v) ∈ class_names text
    /\ "visit" +:+ Tag_str (name v) +:+ base ∈ accept_targets text
    /\ "visit" +:+ Tag_str (name v) +:+ base ∉ map method_name decls.
Proof.
  intros Hbase Hwf Hfirst Hv Hfamily Htag.
  destruct ast as [|first' rest]; [done |]. injection Hfirst as ->.
  exists (family_text base (type_of (name first)) (first :: rest)),
         (map (visitor_method base) (members (type_of (name first)))).
  split; [apply emitted_cons |].
  split; [by apply visitor_methods_family_text |].
  split; [| split].
  - unfold class_names. rewrite split_lines_family_text by done.
    rewrite class_names_family_lines.
    change (Tag_str (name v)
            ∈ (fun u => Tag_str (name u)) <$> first :: rest).
    by apply (list_elem_of_fmap_2 (fun u => Tag_str (name u))).
  - unfold accept_targets. rewrite split_lines_family_text by done.
    rewrite accept_targets_family_lines by done.
    rewrite <- Hfamily.
    change ("visit" +:+ Tag_str (name v) +:+ base_name v
            ∈ (fun u => "visit" +:+ Tag_str (name u) +:+ base_name u)
                <$> first :: rest).
    by apply (list_elem_of_fmap_2
                (fun u => "visit" +:+ Tag_str (name u) +:+ base_name u)).
  - rewrite map_map.
    change (map (fun t => method_name (visitor_method base t))
                (members (type_of (name first))))
      with ((fun t => method_name (visitor_method base t))
              <$> members (type_of (name first))).
    intros (t & Hname & Ht)%list_elem_of_fmap_1.
    apply Htag. apply elem_of_members.
    change ("visit" +:+ Tag_str (name v) +:+ base)
      with (method_name (visitor_method base (name v))) in Hname.
    by apply visitor_method_name_inj in Hname as ->.
Qed.

Lemma foreign_tag_dispatch_undeclared_witness :
  exists text decls,
    emitted "out" "Expression" mixed_family empty_world = Some text
    /\ visitor_methods text = Some decls
    /\ "Print" ∈ class_names text
    /\ "visitPrintExpression" ∈ accept_targets text
    /\ "visitPrintExpression" ∉ map method_name decls.
Proof.
  exact (foreign_tag_dispatch_undeclared "out" "Expression" mixed_family
           empty_world
           (mkAST_Class "Expression" (StmtTag PRINT)
              [mkParameter EXPRESSION "expression"])
           literal_variant
           eq_refl ltac:(repeat constructor) eq_refl
           ltac:(repeat constructor) eq_refl ltac:(discriminate)).
Defined.

(* ================================================================== *)
(** ** The builders feed the emitter                                   *)
(* ================================================================== *)

Lemma build_expressions_wf base :
  identifier base = true ->
  Forall (fun v => wf_variant v = true) (build_expressions base).
Proof.
  intros Hbase. unfold build_expressions.
  repeat constructor;
    unfold wf_variant; cbn [base_name parameters]; by rewrite Hbase.
Qed.

Lemma build_statements_wf base :
  identifier base = true ->
  Forall (fun v => wf_variant v = true) (build_statements base).
Proof.
  intros Hbase. unfold build_statements.
  repeat constructor;
    unfold wf_variant; cbn [base_name parameters]; by rewrite Hbase.
Qed.

(** X13.  For every family name that is an identifier, what either
    builder returns for that name is a list [define_ast] turns into a
    consistent file: the classes are the members of the enumeration in
    declaration order, every method the visitor interface declares is
    dispatched to by exactly the class it takes as parameter, and no
    class dispatches elsewhere. *)
Theorem builders_give_consistent_files
    (output_dir base : string) (w : World) :
  identifier base = true ->
  (exists text decls,
     emitted output_dir base (build_expressions base) w = Some text
     /\ visitor_methods text = Some decls
     /\ class_names text
        = ["Assign"; "Binary"; "Grouping"; "Literal"; "Unary"; "Variable"]
     /\ class_names text = map parameter_type decls
     /\ accept_targets text = map method_name decls)
  /\ (exists text decls,
        emitted output_dir base (build_statements base) w = Some text
        /\ visitor_methods text = Some decls
        /\ class_names text = ["Expr"; "Print"; "Var"]
        /\ class_names text = map parameter_type decls
        /\ accept_targets text = map method_name decls).
Proof.
  intros Hbase. split.
  - pose proof (build_expressions_wf base Hbase) as Hwf.
    exists (family_text base Expression_Type_class (build_expressions base)),
           (map (visitor_method base) (members Expression_Type_class)).
    split; [apply emitted_cons |].
    split; [by apply visitor_methods_family_text |].
    unfold class_names, accept_targets.
    rewrite split_lines_family_text by done.
    rewrite class_names_family_lines, accept_targets_family_lines by done.
    by repeat split.
  - pose proof (build_statements_wf base Hbase) as Hwf.
    exists (family_text base Statement_Type_class (build_statements base)),
           (map (visitor_method base) (members Statement_Type_class)).
    split; [apply emitted_cons |].
    split; [by apply visitor_methods_family_text |].
    unfold class_names, accept_targets.
    rewrite split_lines_family_text by done.
    rewrite class_names_family_lines, accept_targets_family_lines by done.
    by repeat split.
Qed.

Lemma builders_give_consistent_files_witness :
  identifier "Node" = true
  /\ exists text decls,
       emitted "out" "Node" (build_statements "Node") empty_world = Some text
       /\ visitor_methods text = Some decls
       /\ class_names text = ["Expr"; "Print"; "Var"]
       /\ class_names text = map parameter_type decls
       /\ accept_targets text = map method_name decls.
Proof.
  split; [reflexivity |].
  exact (proj2 (builders_give_consistent_files "out" "Node" empty_world
                  eq_refl)).
Defined.
